(** * codex-wrapper: message adapter, session manager, stream translator
      and tool-call extractor

    A shallow embedding of the TypeScript sources
    ([message-adapter.ts], [session-manager.ts], [auth.ts],
    [codex-client.ts], [tool-handler.ts], [tools.ts] and the
    chat-completions handler of [index.ts]) together with the properties
    checked against them.

    Conventions.
    - A JavaScript string is a [string], one [ascii] per code unit (code
      units below 256); a field that may be [undefined] or [null] is an
      [option].
    - JavaScript truthiness of a string-or-absent value is [truthy]:
      absent and the empty string are falsy.
    - [Map] is modelled by [JsMap]: an association list kept in insertion
      order, which is the iteration order of a JavaScript [Map].
    - Reads of the system clock ([new Date()], [Date.now()]) go through an
      oracle: the k-th read of a run returns [clock k].
    - Built-ins of the JavaScript runtime that the sources call but do not
      define ([JSON.parse], [JSON.stringify], [Math.random],
      [Date.prototype.toISOString]) are parameters of the embedding. *)

From Stdlib Require Import List String Ascii Bool Arith ZArith Lia.
From Stdlib Require Import Numbers.DecimalString.
Import ListNotations.

Local Open Scope list_scope.
Local Open Scope string_scope.

(* ================================================================== *)
(** ** JavaScript values and helpers *)

Module Js.

(** Line feed, the character written [\n] in the sources. *)
Definition LF : ascii := ascii_of_nat 10.
Definition nl : string := String LF EmptyString.
Definition nl2 : string := nl ++ nl.

(** The double quote, for string literals that contain one. *)
Definition dq : string := String (ascii_of_nat 34) EmptyString.

(** [!!s] for a string. *)
Definition nonEmpty (s : string) : bool := negb (s =? "").

(** [!!v] for a value that is a string, [null] or [undefined]. *)
Definition truthy (v : option string) : bool :=
  match v with
  | Some s => nonEmpty s
  | None => false
  end.

(** [v || ''] *)
Definition orEmpty (v : option string) : string :=
  match v with
  | Some s => if nonEmpty s then s else ""
  | None => ""
  end.

(** [v === lit] for a string-or-absent value and a string literal. *)
Definition isLit (v : option string) (lit : string) : bool :=
  match v with
  | Some s => s =? lit
  | None => false
  end.

(** [Array.prototype.includes] on an array of strings. *)
Definition includes (xs : list string) (v : option string) : bool :=
  existsb (isLit v) xs.

(** [Array.prototype.join] on an array of strings. *)
Definition join (sep : string) (xs : list string) : string :=
  String.concat sep xs.

(** Decimal rendering of an array index inside a template literal. *)
Definition showNat (n : nat) : string :=
  NilZero.string_of_uint (Nat.to_uint n).

End Js.

(* ================================================================== *)
(** ** models.ts *)

Module Models.

Record FunctionCall := mkFunctionCall
  { fn_name : string;
    fn_arguments : string (* JSON string *) }.

Record ToolCall := mkToolCall
  { id : string;
    type : string;
    function : FunctionCall }.

(** [role] is optional here although the interface declares it
    mandatory: the value comes from a parsed request body and
    [validateMessages] tests for its absence. *)
Record Message := mkMessage
  { role : option string;
    content : option string;
    name : option string;
    tool_calls : option (list ToolCall);
    tool_call_id : option string }.

Record Usage := mkUsage
  { prompt_tokens : Z;
    completion_tokens : Z;
    total_tokens : Z }.

(** [{ role: r, content: c }] *)
Definition msg (r : string) (c : string) : Message :=
  mkMessage (Some r) (Some c) None None None.

End Models.

(* ================================================================== *)
(** ** message-adapter.ts *)

Module MessageAdapter.
Import Js Models.

(** State of the loop of [messagesToPrompt]: the two arrays it fills. *)
Record Acc := mkAcc
  { systemMessages : list string;
    conversationMessages : list string }.

Definition push {A} (xs : list A) (x : A) : list A := (xs ++ [x])%list.

Definition renderToolCall (tc : ToolCall) : string :=
  "Tool call: " ++ fn_name (function tc)
  ++ "(" ++ fn_arguments (function tc) ++ ")".

(** One iteration of the [for ... of] loop. *)
Definition promptStep (acc : Acc) (message : Message) : Acc :=
  if isLit (role message) "system" then
    if truthy (content message)
    then mkAcc (push (systemMessages acc) (orEmpty (content message)))
               (conversationMessages acc)
    else acc
  else if isLit (role message) "user" then
    let prefix := if truthy (name message)
                  then orEmpty (name message) ++ ": " else "" in
    mkAcc (systemMessages acc)
          (push (conversationMessages acc)
                ("User: " ++ prefix ++ orEmpty (content message)))
  else if isLit (role message) "assistant" then
    let conv1 :=
      if truthy (content message)
      then push (conversationMessages acc)
                ("Assistant: " ++ orEmpty (content message))
      else conversationMessages acc in
    let conv2 :=
      match tool_calls message with
      | Some (tc :: tcs) =>
          let toolCallsStr := join nl (map renderToolCall (tc :: tcs)) in
          push conv1 ("Assistant: " ++ toolCallsStr)
      | _ => conv1
      end in
    mkAcc (systemMessages acc) conv2
  else if isLit (role message) "tool" then
    mkAcc (systemMessages acc)
          (push (conversationMessages acc)
                ("Tool result: " ++ orEmpty (content message)))
  else acc.

(** Returns the pair [prompt, systemPrompt]. *)
Definition messagesToPrompt (messages : list Message)
  : string * option string :=
  let acc := fold_left promptStep messages (mkAcc [] []) in
  let systemPrompt :=
    match systemMessages acc with
    | [] => None
    | _ :: _ => Some (join nl2 (systemMessages acc))
    end in
  let prompt := join nl2 (conversationMessages acc) in
  (prompt, systemPrompt).

(** [Math.ceil(text.length / 4)] *)
Definition estimateTokens (text : string) : nat :=
  (String.length text + 3) / 4.

Record Validation := mkValidation
  { valid : bool;
    error : option string }.

Definition invalid (e : string) : Validation := mkValidation false (Some e).

Definition roles : list string := ["system"; "user"; "assistant"; "tool"].

(** The [for] loop of [validateMessages], entered at index [i]. *)
Fixpoint validateFrom (i : nat) (messages : list Message) : Validation :=
  match messages with
  | [] => mkValidation true None
  | message :: rest =>
      if negb (truthy (role message)) then
        invalid ("Message at index " ++ showNat i
                 ++ " missing required field: role")
      else if negb (includes roles (role message)) then
        invalid ("Message at index " ++ showNat i ++ " has invalid role: "
                 ++ orEmpty (role message))
      else if isLit (role message) "user"
              && negb (truthy (content message)) then
        invalid ("User message at index " ++ showNat i ++ " missing content")
      else validateFrom (S i) rest
  end.

Definition validateMessages (messages : list Message) : Validation :=
  if Nat.eqb (List.length messages) 0
  then invalid "Messages must be a non-empty array"
  else validateFrom 0 messages.

(** The test the loop body of [validateMessages] performs on one entry. *)
Definition failsChecks (m : Message) : bool :=
  negb (truthy (role m))
  || negb (includes roles (role m))
  || (isLit (role m) "user" && negb (truthy (content m))).

(** *** The conditions of the specification, stated on their own *)

Definition lacksRole (m : Message) : Prop := role m = None.

Definition roleOutside (m : Message) : Prop :=
  forall r, In r roles -> role m <> Some r.

(** Empty content: the field is absent or holds the empty string. *)
Definition emptyContent (m : Message) : Prop :=
  content m = None \/ content m = Some "".

Definition emptyUser (m : Message) : Prop :=
  role m = Some "user" /\ emptyContent m.

Definition rejected (messages : list Message) : Prop :=
  messages = []
  \/ (exists m, In m messages /\ lacksRole m)
  \/ (exists m, In m messages /\ roleOutside m)
  \/ (exists m, In m messages /\ emptyUser m).

(** The system prompt as the specification words it: the contents of
    all system-role messages, joined by a blank line; absent when the
    list has no system message. *)
Definition isSystem (m : Message) : bool := isLit (role m) "system".

Definition spec_systemPrompt (messages : list Message) : option string :=
  match filter isSystem messages with
  | [] => None
  | sys => Some (join nl2 (map (fun m => orEmpty (content m)) sys))
  end.

(** The contents the code keeps: those of system-role messages whose
    content is not empty. *)
Definition systemContents (messages : list Message) : list string :=
  map (fun m => orEmpty (content m))
      (filter (fun m => isSystem m && truthy (content m)) messages).

(** *** The other helpers of the adapter *)

(** The lines one message adds to the transcript. *)
Definition linesOf (m : Message) : list string :=
  conversationMessages (promptStep (mkAcc [] []) m).

Definition isUserWithContent (m : Message) : bool :=
  isLit (role m) "user" && truthy (content m).

(** The loop [for (let i = n - 1; i >= 0; i--)] of
    [getLastUserMessage], about to look at index [n - 1]. *)
Fixpoint scanBack (n : nat) (messages : list Message) : option string :=
  match n with
  | O => None
  | S i =>
      match nth_error messages i with
      | Some m =>
          if isUserWithContent m then content m else scanBack i messages
      | None => scanBack i messages
      end
  end.

Definition getLastUserMessage (messages : list Message) : option string :=
  scanBack (List.length messages) messages.

(** [messages.slice(0, -1)] and [messages[messages.length - 1]] *)
Definition splitMessages (messages : list Message)
  : list Message * option Message :=
  if Nat.eqb (List.length messages) 0 then ([], None)
  else (firstn (List.length messages - 1) messages,
        nth_error messages (List.length messages - 1)).

End MessageAdapter.

(* ================================================================== *)
(** ** The JavaScript [Map]

    Keys are strings. Entries are kept in insertion order; [set] on a
    key already present replaces the value where it stands, as mutating
    the stored object does. *)

Module JsMap.
Section Map.
Context {V : Type}.

Definition t := list (string * V).

Definition empty : t := [].

Fixpoint get (k : string) (m : t) : option V :=
  match m with
  | [] => None
  | (k', v) :: rest => if k' =? k then Some v else get k rest
  end.

Definition has (k : string) (m : t) : bool :=
  match get k m with
  | Some _ => true
  | None => false
  end.

Fixpoint set (k : string) (v : V) (m : t) : t :=
  match m with
  | [] => [(k, v)]
  | (k', v') :: rest =>
      if k' =? k then (k, v) :: rest else (k', v') :: set k v rest
  end.

Definition delete (k : string) (m : t) : t :=
  filter (fun e => negb (fst e =? k)) m.

Definition entries (m : t) : list (string * V) := m.

Definition keys (m : t) : list string := map fst m.

Definition values (m : t) : list V := map snd m.

Definition size (m : t) : nat := List.length m.

(** No key occurs twice: what every [Map] satisfies. *)
Fixpoint wf (m : t) : bool :=
  match m with
  | [] => true
  | (k, _) :: rest => negb (has k rest) && wf rest
  end.

End Map.
Arguments t V : clear implicits.
End JsMap.

(* ================================================================== *)
(** ** session-manager.ts *)

Module SessionManager.
Import Js Models.

Record Session := mkSession
  { sessionId : string;
    threadId : string;
    messages : list Message;
    createdAt : Z;       (* Date, as milliseconds since the epoch *)
    lastActive : Z;
    messageCount : nat }.

Record SessionInfo := mkSessionInfo
  { session_id : string;
    created_at : string;
    last_active : string;
    message_count : nat;
    expires_at : string }.

(** The fields of the class that carry data; the timer handle and the
    logger hold none. *)
Record t := mkManager
  { sessions : JsMap.t Session;
    defaultTTL : Z }.

(** What a call can read and change: the manager and the system clock.
    [clock k] is the value of the k-th clock read; [reads] counts the
    reads made so far. *)
Record World := mkWorld
  { clock : nat -> Z;
    reads : nat;
    manager : t }.

Definition M (A : Type) : Type := World -> A * World.

Definition ret {A} (a : A) : M A := fun w => (a, w).

Definition bind {A B} (c : M A) (k : A -> M B) : M B :=
  fun w => let (a, w') := c w in k a w'.

Notation "x <- c ;; k" := (bind c (fun x => k))
  (at level 61, c at next level, right associativity).
Notation "c ;;; k" := (bind c (fun _ => k))
  (at level 61, right associativity).

(** [new Date()] and [Date.now()] *)
Definition newDate : M Z :=
  fun w => (clock w (reads w), mkWorld (clock w) (S (reads w)) (manager w)).

Definition getSessions : M (JsMap.t Session) :=
  fun w => (sessions (manager w), w).

Definition setSessions (s : JsMap.t Session) : M unit :=
  fun w => (tt, mkWorld (clock w) (reads w)
                        (mkManager s (defaultTTL (manager w)))).

Definition getTTL : M Z := fun w => (defaultTTL (manager w), w).

(** [constructor(options)]: a [ttl] of [0] is falsy and keeps the
    default of one hour. *)
Definition create (ttl : option Z) : t :=
  mkManager JsMap.empty
    match ttl with
    | Some v => if (v =? 0)%Z then 3600000%Z else v
    | None => 3600000%Z
    end.

Definition withLastActive (s : Session) (d : Z) : Session :=
  mkSession (sessionId s) (threadId s) (messages s) (createdAt s) d
            (messageCount s).

Definition withThreadId (s : Session) (tid : string) : Session :=
  mkSession (sessionId s) tid (messages s) (createdAt s) (lastActive s)
            (messageCount s).

(** [session.messages.push(message); session.messageCount++] *)
Definition pushMessage (s : Session) (message : Message) : Session :=
  mkSession (sessionId s) (threadId s) (messages s ++ [message])%list
            (createdAt s) (lastActive s) (S (messageCount s)).

(** Body of the loop over the incoming messages. *)
Definition storeStep (s : Session) (message : Message) : Session :=
  if negb (isLit (role message) "system") then pushMessage s message else s.

(** The session object lives in the map and is mutated in place; here
    the mutated record is written back under its key, which leaves its
    place in the map unchanged. The array returned is the session's own
    history. *)
Definition processMessages (msgs : list Message) (sid : option string)
  : M (list Message * option string) :=
  if negb (truthy sid) then ret (msgs, None)
  else
    let sessionId := orEmpty sid in
    store <- getSessions ;;
    session <-
      match JsMap.get sessionId store with
      | Some s => ret s
      | None =>
          created <- newDate ;;
          active <- newDate ;;
          let s := mkSession sessionId "" [] created active 0 in
          setSessions (JsMap.set sessionId s store) ;;;
          ret s
      end ;;
    now <- newDate ;;
    let session := fold_left storeStep msgs (withLastActive session now) in
    store <- getSessions ;;
    setSessions (JsMap.set sessionId session store) ;;;
    ret (messages session, Some sessionId).

Definition addAssistantResponse (sessionId : string) (message : Message)
  : M unit :=
  store <- getSessions ;;
  match JsMap.get sessionId store with
  | Some session =>
      let session := pushMessage session message in
      now <- newDate ;;
      setSessions (JsMap.set sessionId (withLastActive session now) store)
  | None => ret tt
  end.

Definition getThreadId (sessionId : string) : M (option string) :=
  store <- getSessions ;;
  ret (option_map threadId (JsMap.get sessionId store)).

Definition setThreadId (sessionId : string) (tid : string) : M unit :=
  store <- getSessions ;;
  match JsMap.get sessionId store with
  | Some session =>
      setSessions (JsMap.set sessionId (withThreadId session tid) store)
  | None => ret tt
  end.

Definition getSession (sessionId : string) : M (option Session) :=
  store <- getSessions ;;
  ret (JsMap.get sessionId store).

Definition deleteSession (sessionId : string) : M bool :=
  store <- getSessions ;;
  let deleted := JsMap.has sessionId store in
  setSessions (JsMap.delete sessionId store) ;;;
  ret deleted.

(** One turn of the loop of [cleanup] over the entries of the map. *)
Definition sweepStep (now ttl : Z) (store : JsMap.t Session)
  (entry : string * Session) : JsMap.t Session :=
  let expiresAt := (lastActive (snd entry) + ttl)%Z in
  if (now >? expiresAt)%Z then JsMap.delete (fst entry) store else store.

(** The entry has key [k] and is past its expiry at [now]. *)
Definition expiredKey (now ttl : Z) (k : string) (e : string * Session)
  : bool :=
  (fst e =? k) && (now >? lastActive (snd e) + ttl)%Z.

Definition cleanup : M unit :=
  now <- newDate ;;
  ttl <- getTTL ;;
  store <- getSessions ;;
  setSessions (fold_left (sweepStep now ttl) (JsMap.entries store) store).

Definition clear : M unit := setSessions JsMap.empty.

Section Rendering.
(** [Date.prototype.toISOString], applied to a date given in
    milliseconds since the epoch. *)
Variable toISOString : Z -> string.

Definition listSessions : M (list SessionInfo) :=
  ttl <- getTTL ;;
  store <- getSessions ;;
  ret (map (fun e : string * Session =>
              let (sessionId, session) := e in
              mkSessionInfo sessionId
                (toISOString (createdAt session))
                (toISOString (lastActive session))
                (messageCount session)
                (toISOString (lastActive session + ttl)%Z))
           (JsMap.entries store)).

End Rendering.

(** *** Runs of the manager

    The calls the server makes on its manager, and a run of them from a
    freshly constructed manager. *)
Inductive Call :=
| ProcessMessages (msgs : list Message) (sid : option string)
| AddAssistantResponse (sid : string) (message : Message)
| SetThreadId (sid : string) (tid : string)
| DeleteSession (sid : string)
| Cleanup
| Clear.

Definition exec (c : Call) (w : World) : World :=
  match c with
  | ProcessMessages msgs sid => snd (processMessages msgs sid w)
  | AddAssistantResponse sid message => snd (addAssistantResponse sid message w)
  | SetThreadId sid tid => snd (setThreadId sid tid w)
  | DeleteSession sid => snd (deleteSession sid w)
  | Cleanup => snd (cleanup w)
  | Clear => snd (clear w)
  end.

Definition start (clk : nat -> Z) (ttl : option Z) : World :=
  mkWorld clk 0 (create ttl).

Definition run (clk : nat -> Z) (ttl : option Z) (calls : list Call) : World :=
  fold_left (fun w c => exec c w) calls (start clk ttl).

(** The invariant on the counter of a session. *)
Definition countsMessages (store : JsMap.t Session) : Prop :=
  forall sid s, JsMap.get sid store = Some s ->
                messageCount s = List.length (messages s).

(** *** Statistics *)

Record Stats := mkStats
  { activeSessions : nat;
    totalMessages : nat;
    oldestSession : option string;
    newestSession : option string }.

(** The three variables of the loop of [getStats]. *)
Record StatsAcc := mkStatsAcc
  { total : nat;
    oldest : option Session;
    newest : option Session }.

Definition statsStep (acc : StatsAcc) (session : Session) : StatsAcc :=
  mkStatsAcc
    (total acc + messageCount session)
    (match oldest acc with
     | None => Some session
     | Some o =>
         if (createdAt session <? createdAt o)%Z then Some session
         else oldest acc
     end)
    (match newest acc with
     | None => Some session
     | Some n =>
         if (createdAt session >? createdAt n)%Z then Some session
         else newest acc
     end).

Definition statsOf (store : JsMap.t Session) : StatsAcc :=
  fold_left statsStep (JsMap.values store) (mkStatsAcc 0 None None).

(** [o] is a session of [l] or the one already held, and none of them
    was created before it. *)
Definition earliest (held : option Session) (l : list Session)
  (o : Session) : Prop :=
  (In o l \/ held = Some o)
  /\ (forall s, In s l -> (createdAt o <= createdAt s)%Z)
  /\ (forall h, held = Some h -> (createdAt o <= createdAt h)%Z).

Definition latest (held : option Session) (l : list Session)
  (n : Session) : Prop :=
  (In n l \/ held = Some n)
  /\ (forall s, In s l -> (createdAt s <= createdAt n)%Z)
  /\ (forall h, held = Some h -> (createdAt h <= createdAt n)%Z).

Section StatsRendering.
Variable toISOString : Z -> string.

(** [session?.createdAt.toISOString() || null] *)
Definition isoOrNull (s : option Session) : option string :=
  match s with
  | Some x =>
      if nonEmpty (toISOString (createdAt x))
      then Some (toISOString (createdAt x)) else None
  | None => None
  end.

Definition getStats : M Stats :=
  store <- getSessions ;;
  let acc := statsOf store in
  ret (mkStats (JsMap.size store) (total acc)
         (isoOrNull (oldest acc)) (isoOrNull (newest acc))).

End StatsRendering.

(** *** Further invariants of a store *)

(** A session is filed under its own id. *)
Definition keyedById (store : JsMap.t Session) : Prop :=
  forall sid s, JsMap.get sid store = Some s -> sessionId s = sid.

Definition nonSystem (m : Message) : bool := negb (isLit (role m) "system").

(** No history holds a system message. *)
Definition systemFree (store : JsMap.t Session) : Prop :=
  forall sid s, JsMap.get sid store = Some s ->
                forallb nonSystem (messages s) = true.

(** The messages a call hands to [addAssistantResponse] are not system
    messages. *)
Definition addsNoSystem (c : Call) : bool :=
  match c with
  | AddAssistantResponse _ message => nonSystem message
  | _ => true
  end.

(** The session is not past its expiry at [now]. *)
Definition alive (now ttl : Z) (e : string * Session) : bool :=
  negb (now >? lastActive (snd e) + ttl)%Z.

End SessionManager.

(* ================================================================== *)
(** ** tools.ts *)

Module Tools.
Import Js.

Record Property := mkProperty
  { p_type : string;
    p_description : string;
    p_enum : option (list string) }.

(** The [parameters] object; its [type] is always ['object']. *)
Record Parameters := mkParameters
  { properties : list (string * Property);
    required : list string }.

Record ToolDefinition := mkTool
  { name : string;
    description : string;
    parameters : Parameters;
    codex_native : option bool }.

Definition ToolRegistry := JsMap.t ToolDefinition.

Definition register (tool : ToolDefinition) (r : ToolRegistry) : ToolRegistry :=
  JsMap.set (name tool) tool r.

Definition get (n : string) (r : ToolRegistry) : option ToolDefinition :=
  JsMap.get n r.

Definition getNames (r : ToolRegistry) : list string := JsMap.keys r.

Definition prop (ty descr : string) : Property := mkProperty ty descr None.

Definition defaultTools : list ToolDefinition :=
  [ mkTool "read_file" "Read the contents of a file"
      (mkParameters
         [("path", prop "string"
             "The path to the file to read (relative or absolute)")]
         ["path"])
      (Some true);
    mkTool "write_file" "Write content to a file (creates or overwrites)"
      (mkParameters
         [("path", prop "string" "The path to the file to write");
          ("content", prop "string" "The content to write to the file")]
         ["path"; "content"])
      (Some true);
    mkTool "edit_file" "Edit a file by replacing text"
      (mkParameters
         [("path", prop "string" "The path to the file to edit");
          ("old_text", prop "string" "The text to replace");
          ("new_text", prop "string" "The new text")]
         ["path"; "old_text"; "new_text"])
      (Some true);
    mkTool "run_command" "Execute a bash/shell command"
      (mkParameters
         [("command", prop "string" "The command to execute");
          ("cwd", prop "string"
             "Working directory for the command (optional)")]
         ["command"])
      (Some true);
    mkTool "list_directory" "List contents of a directory"
      (mkParameters
         [("path", prop "string"
             "The directory path to list (defaults to current directory)");
          ("recursive", prop "boolean" "Whether to list recursively")]
         [])
      (Some true);
    mkTool "search_files" "Search for files by name pattern (glob)"
      (mkParameters
         [("pattern", prop "string"
             ("Glob pattern (e.g., " ++ dq ++ "*.ts" ++ dq ++ ", "
              ++ dq ++ "**/*.json" ++ dq ++ ")"));
          ("path", prop "string" "Directory to search in (optional)")]
         ["pattern"])
      (Some true);
    mkTool "search_in_files" "Search for text within files (grep)"
      (mkParameters
         [("pattern", prop "string" "Text or regex pattern to search for");
          ("path", prop "string" "File or directory to search in (optional)");
          ("file_pattern", prop "string"
             ("File pattern to filter (e.g., " ++ dq ++ "*.ts" ++ dq ++ ")"))]
         ["pattern"])
      (Some true);
    mkTool "web_search" "Search the web for information"
      (mkParameters
         [("query", prop "string" "Search query");
          ("num_results", prop "number"
             "Number of results to return (default: 5)")]
         ["query"])
      (Some true);
    mkTool "fetch_url" "Fetch content from a URL"
      (mkParameters
         [("url", prop "string" "URL to fetch");
          ("method", mkProperty "string" "HTTP method (GET, POST, etc.)"
                       (Some ["GET"; "POST"; "PUT"; "DELETE"; "PATCH"]));
          ("headers", prop "object" "HTTP headers (optional)");
          ("body", prop "string" "Request body (optional)")]
         ["url"])
      (Some true) ].

(** [registerDefaultTools], run by the constructor on an empty map. *)
Definition registerDefaultTools (r : ToolRegistry) : ToolRegistry :=
  fold_left (fun acc tool => register tool acc) defaultTools r.

(** The singleton [toolRegistry]. *)
Definition toolRegistry : ToolRegistry := registerDefaultTools JsMap.empty.

Definition isNative (n : string) (r : ToolRegistry) : bool :=
  match JsMap.get n r with
  | Some t => match codex_native t with Some b => b | None => false end
  | None => false
  end.

(** A registry built by registering the given tools, one after the
    other, on an empty map. *)
Definition registerAll (tools : list ToolDefinition) : ToolRegistry :=
  fold_left (fun acc tool => register tool acc) tools JsMap.empty.

Definition getAll (r : ToolRegistry) : list ToolDefinition := JsMap.values r.

End Tools.

(* ================================================================== *)
(** ** Regular expressions

    The two patterns of [tool-handler.ts] are sequences of single
    characters and of quantified character classes, so a pattern is a
    list of atoms. [matchHere] is the backtracking match anchored at the
    start of its input: a greedy [Plus] tries the longest run first, a
    [LazyStar] the shortest. It returns the text each atom consumed. *)

Module Regex.

Inductive Atom :=
| Chr (p : ascii -> bool)        (* one character of the class *)
| Plus (p : ascii -> bool)       (* class+ *)
| LazyStar (p : ascii -> bool).  (* class*? *)

Definition Pattern := list Atom.

Definition withEmpty (r : option (list string))
  : option (string * list string) :=
  option_map (pair "") r.

Fixpoint matchHere (pat : Pattern) : string -> option (list string) :=
  match pat with
  | [] => fun _ => Some []
  | Chr p :: rest =>
      fun s =>
        match s with
        | String c s' =>
            if p c
            then option_map (cons (String c "")) (matchHere rest s')
            else None
        | EmptyString => None
        end
  | Plus p :: rest =>
      let k := matchHere rest in
      let more :=
        fix more (s : string) : option (string * list string) :=
          match s with
          | String c s' =>
              if p c then
                match more s' with
                | Some (w, parts) => Some (String c w, parts)
                | None => withEmpty (k s)
                end
              else withEmpty (k s)
          | EmptyString => withEmpty (k s)
          end in
      fun s =>
        match s with
        | String c s' =>
            if p c then
              match more s' with
              | Some (w, parts) => Some (String c w :: parts)
              | None => None
              end
            else None
        | EmptyString => None
        end
  | LazyStar p :: rest =>
      let k := matchHere rest in
      fix shortest (s : string) : option (list string) :=
        match k s with
        | Some parts => Some ("" :: parts)
        | None =>
            match s with
            | String c s' =>
                if p c then
                  match shortest s' with
                  | Some (w :: parts) => Some (String c w :: parts)
                  | _ => None
                  end
                else None
            | EmptyString => None
            end
        end
  end.

(** Number of characters a match spans. *)
Definition span (parts : list string) : nat :=
  String.length (String.concat "" parts).

(** Successive [exec] calls of a pattern with the [g] flag: the leftmost
    match at or after [lastIndex], then again from the end of that
    match. [skip] is the number of characters still to pass before
    [lastIndex] is reached. Both patterns below consume at least one
    character, so no match starts at the end of the text. *)
Fixpoint execAll (pat : Pattern) (skip : nat) (s : string)
  : list (list string) :=
  match s with
  | EmptyString => []
  | String _ s' =>
      match skip with
      | S n => execAll pat n s'
      | O =>
          match matchHere pat s with
          | Some parts => parts :: execAll pat (pred (span parts)) s'
          | None => execAll pat 0 s'
          end
      end
  end.

(** A capture group covering [len] atoms from atom number [from]. *)
Definition group (from len : nat) (parts : list string) : string :=
  String.concat "" (firstn len (skipn from parts)).

Definition lit (c : ascii) : Atom := Chr (Ascii.eqb c).

(** [\w] *)
Definition isWord (c : ascii) : bool :=
  let n := nat_of_ascii c in
  (((48 <=? n) && (n <=? 57)) || ((65 <=? n) && (n <=? 90))
   || ((97 <=? n) && (n <=? 122)) || (n =? 95))%nat.

(** [[^}]] *)
Definition notCloseBrace (c : ascii) : bool := negb (Ascii.eqb c "}").

(** [[\s\S]] *)
Definition anyChar (c : ascii) : bool := true.

End Regex.

(* ================================================================== *)
(** ** tool-handler.ts *)

Module ToolHandler.
Import Js Models Regex.

(** What [extractToolCalls] asks of the JavaScript runtime.
    [JSON_parse] is [None] where [JSON.parse] throws; [random36 k] is
    the text of [Math.random().toString(36)] at the k-th draw. *)
Record Runtime (J : Type) := mkRuntime
  { JSON_parse : string -> option J;
    JSON_stringify : J -> string;
    random36 : nat -> string }.
Arguments mkRuntime {J}.
Arguments JSON_parse {J}.
Arguments JSON_stringify {J}.
Arguments random36 {J}.

(** [/(\w+)\((\{[^}]+\})\)/g] *)
Definition functionCallPattern : Pattern :=
  [Plus isWord; lit "("; lit "{"; Plus notCloseBrace; lit "}"; lit ")"].

(** The pattern of a fenced block: three backquotes, [(\w+)], a line
    feed, [(\{[\s\S]*?\})], a line feed, three backquotes. *)
Definition codeBlockPattern : Pattern :=
  [lit "`"; lit "`"; lit "`"; Plus isWord; lit Js.LF;
   lit "{"; LazyStar anyChar; lit "}"; lit Js.LF; lit "`"; lit "`"; lit "`"].

(** The pairs [functionName, argsStr] of the successive matches. *)
Definition functionCallMatches (content : string) : list (string * string) :=
  map (fun parts => (group 0 1 parts, group 2 3 parts))
      (execAll functionCallPattern 0 content).

Definition codeBlockMatches (content : string) : list (string * string) :=
  map (fun parts => (group 3 1 parts, group 5 3 parts))
      (execAll codeBlockPattern 0 content).

Section Extract.
Context {J : Type}.
Variable rt : Runtime J.
Variable registry : Tools.ToolRegistry.

(** [`call_${Math.random().toString(36).substr(2, 9)}`] *)
Definition callId (k : nat) : string :=
  "call_" ++ substring 2 9 (random36 rt k).

(** Body of either [while] loop. The state is the array [toolCalls]
    and the number of random draws made. *)
Definition collect (st : list ToolCall * nat) (m : string * string)
  : list ToolCall * nat :=
  let (functionName, argsStr) := m in
  let (toolCalls, k) := st in
  match Tools.get functionName registry with
  | Some _ =>
      match JSON_parse rt argsStr with
      | Some args =>
          ((toolCalls ++
            [mkToolCall (callId k) "function"
               (mkFunctionCall functionName (JSON_stringify rt args))])%list,
           S k)
      | None => st
      end
  | None => st
  end.

Definition extractToolCalls (message : Message) : option (list ToolCall) :=
  if negb (truthy (content message)) then None
  else
    let content := orEmpty (content message) in
    let st := fold_left collect (functionCallMatches content) ([], 0) in
    let st := fold_left collect (codeBlockMatches content) st in
    match fst st with
    | [] => None
    | toolCalls => Some toolCalls
    end.

(** A match that yields a tool call: its name is registered and its
    argument text parses. *)
Definition validMatch (m : string * string) : Prop :=
  Tools.get (fst m) registry <> None /\ JSON_parse rt (snd m) <> None.

End Extract.

(** The request fields [shouldEnableTools] looks at: [enable_tools],
    and the lengths of [tools] and [functions] where they are arrays. *)
Record ToolFlags := mkToolFlags
  { enable_tools : option bool;
    tools : option nat;
    functions : option nat }.

Definition nonEmptyArray (len : option nat) : bool :=
  match len with
  | Some n => negb (n =? 0)%nat
  | None => false
  end.

Definition shouldEnableTools (request : ToolFlags) : bool :=
  match enable_tools request with
  | Some true => true
  | _ =>
      if nonEmptyArray (tools request) then true
      else if nonEmptyArray (functions request) then true
      else false
  end.

(** *** The calls [extractToolCalls] builds

    [validb] is the test of the loop body; [callsFrom k] numbers the
    random draws from [k] on. *)
Section Calls.
Context {J : Type}.
Variable rt : Runtime J.
Variable registry : Tools.ToolRegistry.

Definition validb (m : string * string) : bool :=
  match Tools.get (fst m) registry, JSON_parse rt (snd m) with
  | Some _, Some _ => true
  | _, _ => false
  end.

Definition makeCall (k : nat) (m : string * string) : ToolCall :=
  mkToolCall (callId rt k) "function"
    (mkFunctionCall (fst m)
       match JSON_parse rt (snd m) with
       | Some args => JSON_stringify rt args
       | None => ""
       end).

Fixpoint callsFrom (k : nat) (ms : list (string * string)) : list ToolCall :=
  match ms with
  | [] => []
  | m :: rest => makeCall k m :: callsFrom (S k) rest
  end.

(** *** injectToolContext *)








End Calls.

(** *** getToolConfig *)

(** An entry of [request.tools]: its [type] and [function?.name]. *)
Record ToolSpec := mkToolSpec
  { ts_type : string;
    ts_name : option string }.

(** [request.tool_choice]: a string, or an object with [type] and
    [function?.name]. *)
Inductive ToolChoice :=
| ChoiceString (s : string)
| ChoiceObject (type : string) (fname : option string).

Record ToolRequest := mkToolRequest
  { tr_enable_tools : option bool;
    tr_tools : option (list ToolSpec);
    tr_functions : option nat;
    tr_tool_choice : option ToolChoice }.

Definition flagsOf (request : ToolRequest) : ToolFlags :=
  mkToolFlags (tr_enable_tools request)
    (option_map (@List.length ToolSpec) (tr_tools request))
    (tr_functions request).

(** [.filter(t => t.type === 'function').map(t => t.function?.name)
    .filter(Boolean)] *)
Definition requestedTools (specs : list ToolSpec) : list string :=
  map (fun t => orEmpty (ts_name t))
      (filter (fun t => truthy (ts_name t))
              (filter (fun t => ts_type t =? "function") specs)).

(** Returns [allowed_tools, disallowed_tools]. *)
Definition getToolConfig (registry : Tools.ToolRegistry)
  (request : ToolRequest) : option (list string) * option (list string) :=
  if negb (shouldEnableTools (flagsOf request)) then
    (None, Some (Tools.getNames registry))
  else
    let requested :=
      match tr_tools request with
      | Some specs => requestedTools specs
      | None => []
      end in
    match requested with
    | _ :: _ => (Some requested, None)
    | [] =>
        match tr_tool_choice request with
        | Some (ChoiceString s) =>
            if s =? "none" then (None, Some (Tools.getNames registry))
            else (None, None)
        | Some (ChoiceObject ty fname) =>
            if (ty =? "function") && truthy fname
            then (Some [orEmpty fname], None)
            else (None, None)
        | None => (None, None)
        end
    end.

End ToolHandler.

(* ================================================================== *)
(** ** codex-client.ts *)

Module CodexClient.
Import Js Models.

(** *** The Codex SDK, as far as the client reads it *)

Inductive ItemContent :=
| Text (s : string)
| Parts (texts : list (option string)).  (* an array; each entry's [text] *)

Record Item := mkItem
  { item_type : string;
    item_text : option string;
    item_content : option ItemContent }.

Record SdkUsage := mkSdkUsage
  { inputTokens : option Z;
    outputTokens : option Z }.

Inductive ThreadEvent :=
| ItemCompleted (item : option Item)       (* 'item.completed' *)
| TurnCompleted (usage : option SdkUsage)  (* 'turn.completed' *)
| SdkError (error : option string)         (* 'error' *)
| OtherEvent (type : string).

(** What [runStreamed] delivers: the events of its iterator and, when
    the iterator (or the call itself, with no event) throws, the message
    of the exception. *)
Record Streamed := mkStreamed
  { events : list ThreadEvent;
    fault : option string }.

(** What [run] delivers. *)
Inductive RunResult :=
| ResultString (s : string)
| ResultObject (json : string)   (* an object, with its JSON.stringify text *)
| ResultOther
| RunThrows (message : string).

Record Thread := mkThread
  { id : option string;
    run : string -> RunResult;
    runStreamed : string -> Streamed }.

Record Codex := mkCodex
  { startThread : Thread;
    resumeThread : string -> Thread }.

(** *** The client *)

Record CodexResponse := mkCodexResponse
  { r_content : string;
    r_usage : option Usage;
    r_thread_id : option string;
    r_finish_reason : option string }.

Inductive EventType := Content | UsageEvent | Complete | Error.

Record StreamEvent := mkStreamEvent
  { type : EventType;
    content : option string;
    usage : option Usage;
    thread_id : option string;
    finish_reason : option string;
    error : option string }.

(** The options the client reads. *)
Record Options := mkOptions
  { threadId : option string;
    systemPrompt : option string }.

Definition openThread (codex : Codex) (options : Options) : Thread :=
  if truthy (threadId options)
  then resumeThread codex (orEmpty (threadId options))
  else startThread codex.

Definition finalPrompt (prompt : string) (options : Options) : string :=
  if truthy (systemPrompt options)
  then orEmpty (systemPrompt options) ++ nl2 ++ prompt
  else prompt.

(** [(thread as any).id || undefined] *)
Definition idOf (thread : Thread) : option string :=
  if truthy (id thread) then id thread else None.

(** Outcome of [runCompletion]: a response, or the rethrown error. *)
Definition runCompletion (codex : Codex) (prompt : string) (options : Options)
  : CodexResponse + string :=
  let thread := openThread codex options in
  match run thread (finalPrompt prompt options) with
  | RunThrows e => inr e
  | result =>
      let content :=
        match result with
        | ResultString s => s
        | ResultObject json => json
        | _ => ""
        end in
      inl (mkCodexResponse content None (idOf thread) (Some "stop"))
  end.

(** [x || 0] *)
Definition orZero (x : option Z) : Z :=
  match x with Some v => v | None => 0%Z end.

Definition ofSdkUsage (u : SdkUsage) : Usage :=
  mkUsage (orZero (inputTokens u)) (orZero (outputTokens u))
          (orZero (inputTokens u) + orZero (outputTokens u))%Z.

Definition contentEvent (text : string) (tid : option string) : StreamEvent :=
  mkStreamEvent Content (Some text) None tid None None.

(** The events one SDK event makes the generator yield, and the value
    of [totalUsage] after it. *)
Definition onEvent (tid : option string) (totalUsage : option Usage)
  (event : ThreadEvent) : list StreamEvent * option Usage :=
  match event with
  | ItemCompleted (Some item) =>
      if (item_type item =? "text") && truthy (item_text item) then
        ([contentEvent (orEmpty (item_text item)) tid], totalUsage)
      else
        match item_content item with
        | Some c =>
            let present :=
              match c with
              | Text s => nonEmpty s
              | Parts _ => true
              end in
            if (item_type item =? "message") && present then
              let content :=
                match c with
                | Parts texts => join "" (map orEmpty texts)
                | Text s => s
                end in
              if nonEmpty content
              then ([contentEvent content tid], totalUsage)
              else ([], totalUsage)
            else ([], totalUsage)
        | None => ([], totalUsage)
        end
  | ItemCompleted None => ([], totalUsage)
  | TurnCompleted (Some u) =>
      let total := ofSdkUsage u in
      ([mkStreamEvent UsageEvent None (Some total) tid None None], Some total)
  | TurnCompleted None => ([], totalUsage)
  | SdkError e =>
      let message := match e with Some s => s | None => "Unknown error" end in
      ([mkStreamEvent Error None None tid None (Some message)], totalUsage)
  | OtherEvent _ => ([], totalUsage)
  end.

(** The [for await] loop over the SDK events. *)
Fixpoint forEvents (tid : option string) (totalUsage : option Usage)
  (evs : list ThreadEvent) : list StreamEvent * option Usage :=
  match evs with
  | [] => ([], totalUsage)
  | event :: rest =>
      let (out, total) := onEvent tid totalUsage event in
      let (outs, final) := forEvents tid total rest in
      ((out ++ outs)%list, final)
  end.

(** The events the generator yields when it is drained. *)
Definition runCompletionStreaming (codex : Codex) (prompt : string)
  (options : Options) : list StreamEvent :=
  let thread := openThread codex options in
  let streamed := runStreamed thread (finalPrompt prompt options) in
  let tid := idOf thread in
  let (out, totalUsage) := forEvents tid None (events streamed) in
  match fault streamed with
  | None =>
      (out ++ [mkStreamEvent Complete None totalUsage tid (Some "stop")
                 None])%list
  | Some message =>
      (out ++ [mkStreamEvent Error None None None None (Some message)])%list
  end.

Definition isSdkError (e : ThreadEvent) : bool :=
  match e with
  | SdkError _ => true
  | _ => false
  end.

Definition isTerminal (e : StreamEvent) : bool :=
  match type e with
  | Complete | Error => true
  | _ => false
  end.

(** The reading of "exactly one terminal event ends the stream": the
    last event is terminal and none before it is. *)
Definition endsOnce (out : list StreamEvent) : Prop :=
  exists before last,
    out = (before ++ [last])%list
    /\ isTerminal last = true
    /\ forallb (fun e => negb (isTerminal e)) before = true.

(** The usage figures of the turns that completed with some, in order. *)
Definition turnUsage (e : ThreadEvent) : list SdkUsage :=
  match e with
  | TurnCompleted (Some u) => [u]
  | _ => []
  end.

Definition lastOf {A} (l : list A) : option A :=
  match rev l with
  | x :: _ => Some x
  | [] => None
  end.

Definition lastTurnUsage (evs : list ThreadEvent) : option Usage :=
  option_map ofSdkUsage (lastOf (flat_map turnUsage evs)).

Definition isError (e : StreamEvent) : bool :=
  match type e with
  | Error => true
  | _ => false
  end.

Definition isComplete (e : StreamEvent) : bool :=
  match type e with
  | Complete => true
  | _ => false
  end.

(** An event the loop may yield: not [complete], stamped with the
    thread id, and with text when it is a [content] event. *)
Definition wellFormed (tid : option string) (e : StreamEvent) : Prop :=
  isComplete e = false
  /\ thread_id e = tid
  /\ (type e = Content -> truthy (content e) = true).

End CodexClient.

(* ================================================================== *)
(** ** index.ts: POST /v1/chat/completions *)

Module Server.
Import Js Models SessionManager.

Record Request := mkRequest
  { model : string;
    messages : list Message;
    session_id : option string;
    stream : option bool;
    toolFlags : ToolHandler.ToolFlags }.

Record Delta := mkDelta
  { d_role : option string;
    d_content : option string }.

Record StreamChoice := mkStreamChoice
  { sc_index : nat;
    sc_delta : Delta;
    sc_finish_reason : option string }.

Record ChatCompletionStreamResponse := mkChunk
  { c_id : string;
    c_created : Z;
    c_model : string;
    c_choices : list StreamChoice;
    c_usage : option Usage }.

Record ResponseMessage := mkResponseMessage
  { m_role : string;
    m_content : option string;
    m_tool_calls : option (list ToolCall) }.

Record ChatCompletionResponse := mkCompletion
  { id : string;
    created : Z;
    r_model : string;
    message : ResponseMessage;
    finish_reason : string;
    usage : Usage }.

(** What is written to [reply.raw] in streaming mode, after the
    response head. *)
Inductive Frame :=
| Data (chunk : ChatCompletionStreamResponse)  (* data: <chunk> *)
| Done                                         (* data: [DONE] *)
| ErrorData (message : string)                 (* data: {error:{message}} *)
| End.                                         (* reply.raw.end() *)

Inductive Reply :=
| ErrorReply (code : nat) (message : string) (kind : string)
| Completion (response : ChatCompletionResponse)
| Streaming (frames : list Frame).

(** [Math.floor(Date.now() / 1000)] *)
Definition seconds : M Z :=
  now <- newDate ;; ret (now / 1000)%Z.

(** [e || lit] *)
Definition orElse (v : option string) (lit : string) : string :=
  if truthy v then orEmpty v else lit.

(** The [for await] loop of the streaming branch together with its
    [catch]: an error event makes the body throw, which ends the
    iteration, writes the error frame and closes the reply. *)
Fixpoint forStream (requestId mdl : string) (actualSessionId : option string)
  (evs : list CodexClient.StreamEvent) : M (list Frame) :=
  match evs with
  | [] => ret [End]
  | event :: rest =>
      match CodexClient.type event with
      | CodexClient.Content =>
          if truthy (CodexClient.content event) then
            created <- seconds ;;
            let chunk :=
              mkChunk requestId created mdl
                [mkStreamChoice 0
                   (mkDelta (Some "assistant") (CodexClient.content event))
                   None]
                None in
            frames <- forStream requestId mdl actualSessionId rest ;;
            ret (Data chunk :: frames)
          else forStream requestId mdl actualSessionId rest
      | CodexClient.Complete =>
          created <- seconds ;;
          let finalChunk :=
            mkChunk requestId created mdl
              [mkStreamChoice 0 (mkDelta None None)
                 (Some (orElse (CodexClient.finish_reason event) "stop"))]
              (CodexClient.usage event) in
          (if truthy actualSessionId && truthy (CodexClient.thread_id event)
           then setThreadId (orEmpty actualSessionId)
                            (orEmpty (CodexClient.thread_id event))
           else ret tt) ;;;
          frames <- forStream requestId mdl actualSessionId rest ;;
          ret (Data finalChunk :: Done :: frames)
      | CodexClient.Error =>
          ret [ErrorData (orElse (CodexClient.error event) "Unknown error");
               End]
      | CodexClient.UsageEvent =>
          forStream requestId mdl actualSessionId rest
      end
  end.

(** A chunk that carries text: one choice, a non-empty content in its
    delta and no finish reason. *)
Definition isContentChunk (f : Frame) : bool :=
  match f with
  | Data chunk =>
      match c_choices chunk with
      | [choice] =>
          truthy (d_content (sc_delta choice))
          && match sc_finish_reason choice with
             | None => true
             | Some _ => false
             end
      | _ => false
      end
  | _ => false
  end.

(** A terminal chunk: one choice, an empty delta and a finish reason. *)
Definition isFinalChunk (f : Frame) : bool :=
  match f with
  | Data chunk =>
      match c_choices chunk with
      | [choice] =>
          match d_role (sc_delta choice), d_content (sc_delta choice),
                sc_finish_reason choice with
          | None, None, Some reason => nonEmpty reason
          | _, _, _ => false
          end
      | _ => false
      end
  | _ => false
  end.

Section Handler.
Context {J : Type}.
Variable rt : ToolHandler.Runtime J.
Variable registry : Tools.ToolRegistry.
Variable codex : CodexClient.Codex.
(** The value of [generateRequestId()] for this request. *)
Variable requestId : string.

(** The handler. The results of [getToolConfig] and
    [injectToolContext] are computed by the source and not used
    afterwards; they are left out. *)
Definition chatCompletions (body : Request) : M Reply :=
  let validation := MessageAdapter.validateMessages (messages body) in
  if negb (MessageAdapter.valid validation) then
    ret (ErrorReply 400
           (orElse (MessageAdapter.error validation) "Invalid messages")
           "invalid_request_error")
  else
    r <- processMessages (messages body) (session_id body) ;;
    let (allMessages, actualSessionId) := r in
    let (prompt, systemPrompt) := MessageAdapter.messagesToPrompt allMessages in
    if negb (nonEmpty prompt) then
      ret (ErrorReply 400 "No valid prompt in messages" "invalid_request_error")
    else
      threadId <-
        (if truthy actualSessionId
         then getThreadId (orEmpty actualSessionId)
         else ret None) ;;
      let toolsEnabled := ToolHandler.shouldEnableTools (toolFlags body) in
      let options := CodexClient.mkOptions threadId systemPrompt in
      match stream body with
      | Some true =>
          let yielded :=
            CodexClient.runCompletionStreaming codex prompt options in
          frames <- forStream requestId (model body) actualSessionId
                      yielded ;;
          ret (Streaming frames)
      | _ =>
          match CodexClient.runCompletion codex prompt options with
          | inr e => ret (ErrorReply 500 e "api_error")
          | inl result =>
              let content := CodexClient.r_content result in
              let extractedCalls :=
                if toolsEnabled && nonEmpty content
                then ToolHandler.extractToolCalls rt registry
                       (msg "assistant" content)
                else None in
              let toolCalls :=
                match extractedCalls with
                | Some (c :: cs) => Some (c :: cs)
                | _ => None
                end in
              let finishReason :=
                match toolCalls with
                | Some _ => "tool_calls"
                | None =>
                    if isLit (CodexClient.r_finish_reason result) "tool_calls"
                    then "tool_calls" else "stop"
                end in
              (if truthy actualSessionId
                  && truthy (CodexClient.r_thread_id result)
               then
                 setThreadId (orEmpty actualSessionId)
                             (orEmpty (CodexClient.r_thread_id result)) ;;;
                 addAssistantResponse (orEmpty actualSessionId)
                                      (msg "assistant" content)
               else ret tt) ;;;
              let promptTokens :=
                Z.of_nat (MessageAdapter.estimateTokens prompt) in
              let completionTokens :=
                Z.of_nat (MessageAdapter.estimateTokens content) in
              created <- seconds ;;
              ret (Completion
                     (mkCompletion requestId created (model body)
                        (mkResponseMessage "assistant"
                           (match toolCalls with
                            | Some _ => None
                            | None => Some content
                            end)
                           toolCalls)
                        finishReason
                        (match CodexClient.r_usage result with
                         | Some u => u
                         | None => mkUsage promptTokens completionTokens
                                     (promptTokens + completionTokens)%Z
                         end)))
          end
      end.

(** The part of the handler after the backend answered without
    streaming: the reply and the state it leaves. *)
Definition afterCompletion (body : Request) (prompt : string)
  (actualSessionId : option string) (result : CodexClient.CodexResponse)
  : M Reply :=
  let content := CodexClient.r_content result in
  let toolsEnabled := ToolHandler.shouldEnableTools (toolFlags body) in
  let extractedCalls :=
    if toolsEnabled && nonEmpty content
    then ToolHandler.extractToolCalls rt registry (msg "assistant" content)
    else None in
  let toolCalls :=
    match extractedCalls with
    | Some (c :: cs) => Some (c :: cs)
    | _ => None
    end in
  let finishReason :=
    match toolCalls with
    | Some _ => "tool_calls"
    | None =>
        if isLit (CodexClient.r_finish_reason result) "tool_calls"
        then "tool_calls" else "stop"
    end in
  (if truthy actualSessionId && truthy (CodexClient.r_thread_id result)
   then
     setThreadId (orEmpty actualSessionId)
       (orEmpty (CodexClient.r_thread_id result)) ;;;
     addAssistantResponse (orEmpty actualSessionId) (msg "assistant" content)
   else ret tt) ;;;
  let promptTokens := Z.of_nat (MessageAdapter.estimateTokens prompt) in
  let completionTokens := Z.of_nat (MessageAdapter.estimateTokens content) in
  created <- seconds ;;
  ret (Completion
         (mkCompletion requestId created (model body)
            (mkResponseMessage "assistant"
               (match toolCalls with
                | Some _ => None
                | None => Some content
                end)
               toolCalls)
            finishReason
            (match CodexClient.r_usage result with
             | Some u => u
             | None => mkUsage promptTokens completionTokens
                         (promptTokens + completionTokens)%Z
             end))).

End Handler.

(** The history of a session, if the store holds it. *)
Definition historyOf (sid : string) (w : World) : option (list Message) :=
  option_map SessionManager.messages (JsMap.get sid (sessions (manager w))).

End Server.

(* ================================================================== *)
(** ** auth.ts *)

Module Auth.
Import Js Regex.

Inductive Source := Environment | RuntimeKey | NoKey.

Record AuthManager := mkAuth
  { apiKey : option string;
    apiKeySource : Source }.

(** [constructor()], given the value of [process.env.API_KEY]. *)
Definition create (envKey : option string) : AuthManager :=
  if truthy envKey then mkAuth envKey Environment else mkAuth None NoKey.


(** [this.apiKey !== null] *)
Definition isApiKeyRequired (m : AuthManager) : bool :=
  match apiKey m with
  | Some _ => true
  | None => false
  end.

(** *** Matching a whole string

    The match of a pattern written between [^] and [$]: as [matchHere],
    but the pattern has to use up the input. [greedy] and [shortest] are
    the loops of the two quantifiers, with the match of the rest of the
    pattern as continuation. *)
Fixpoint greedy (p : ascii -> bool) (k : string -> option (list string))
  (s : string) : option (string * list string) :=
  match s with
  | String c s' =>
      if p c then
        match greedy p k s' with
        | Some (w, parts) => Some (String c w, parts)
        | None => withEmpty (k s)
        end
      else withEmpty (k s)
  | EmptyString => withEmpty (k s)
  end.

Fixpoint shortest (p : ascii -> bool) (k : string -> option (list string))
  (s : string) : option (string * list string) :=
  match k s with
  | Some parts => Some ("", parts)
  | None =>
      match s with
      | String c s' =>
          if p c then
            match shortest p k s' with
            | Some (w, parts) => Some (String c w, parts)
            | None => None
            end
          else None
      | EmptyString => None
      end
  end.

Fixpoint matchToEnd (pat : Pattern) : string -> option (list string) :=
  match pat with
  | [] => fun s => match s with
                   | EmptyString => Some []
                   | String _ _ => None
                   end
  | Chr p :: rest =>
      fun s =>
        match s with
        | String c s' =>
            if p c
            then option_map (cons (String c "")) (matchToEnd rest s')
            else None
        | EmptyString => None
        end
  | Plus p :: rest =>
      fun s =>
        match s with
        | String c s' =>
            if p c then
              match greedy p (matchToEnd rest) s' with
              | Some (w, parts) => Some (String c w :: parts)
              | None => None
              end
            else None
        | EmptyString => None
        end
  | LazyStar p :: rest =>
      fun s =>
        match shortest p (matchToEnd rest) s with
        | Some (w, parts) => Some (w :: parts)
        | None => None
        end
  end.

(** What a continuation returns is a split of its whole input into [n]
    parts. *)
Definition splits (n : nat) (k : string -> option (list string)) : Prop :=
  forall s parts, k s = Some parts ->
                  String.concat "" parts = s /\ List.length parts = n.

(** Lower case of an ASCII letter, other characters unchanged. *)
Definition lower (c : ascii) : ascii :=
  let n := nat_of_ascii c in
  if ((65 <=? n) && (n <=? 90))%nat then ascii_of_nat (n + 32) else c.

(** A letter of a pattern with the [i] flag. *)
Definition litI (c : ascii) : Atom :=
  Chr (fun x => Ascii.eqb (lower x) (lower c)).

(** [\s], among the code units below 256. *)
Definition isJsSpace (c : ascii) : bool :=
  let n := nat_of_ascii c in
  ((n =? 9) || (n =? 10) || (n =? 11) || (n =? 12) || (n =? 13)
   || (n =? 32) || (n =? 160))%nat.

(** [.], among the code units below 256. *)
Definition notLineTerminator (c : ascii) : bool :=
  let n := nat_of_ascii c in
  negb ((n =? 10) || (n =? 13))%nat.

(** [/^Bearer\s+(.+)$/i] *)
Definition bearerPattern : Pattern :=
  [litI "B"; litI "e"; litI "a"; litI "r"; litI "e"; litI "r";
   Plus isJsSpace; Plus notLineTerminator].

(** [match[1]] of the header against the pattern. *)
Definition bearerToken (header : string) : option string :=
  option_map (group 7 1) (matchToEnd bearerPattern header).

(** [verifyApiKey], given [request.headers.authorization]. *)
Definition verifyApiKey (m : AuthManager) (authorization : option string)
  : bool :=
  if negb (truthy (apiKey m)) then true
  else if negb (truthy authorization) then false
  else
    match bearerToken (orEmpty authorization) with
    | None => false
    | Some token => token =? orEmpty (apiKey m)
    end.






End Auth.

(* ================================================================== *)
(** ** Sample data

    Concrete runtimes, backends and requests on which the properties
    below are exercised. *)

Module Samples.
Import Js Models.

(** A JSON engine for objects whose members are strings without
    escapes, enough to read the argument objects of the examples. *)
Definition FlatObject := JsMap.t string.

Definition isSpace (c : ascii) : bool :=
  let n := nat_of_ascii c in
  ((n =? 32) || (n =? 9) || (n =? 10) || (n =? 13))%nat.

Fixpoint skipSpace (s : string) : string :=
  match s with
  | String c s' => if isSpace c then skipSpace s' else s
  | EmptyString => s
  end.

(** The characters up to the closing quote, and what follows it. *)
Fixpoint readString (s : string) : option (string * string) :=
  match s with
  | EmptyString => None
  | String c s' =>
      if Ascii.eqb c (ascii_of_nat 34) then Some ("", s')
      else if Ascii.eqb c "\" || (nat_of_ascii c <? 32)%nat then None
      else match readString s' with
           | Some (w, rest) => Some (String c w, rest)
           | None => None
           end
  end.

Definition quoted (s : string) : option (string * string) :=
  match skipSpace s with
  | String c s' => if Ascii.eqb c (ascii_of_nat 34) then readString s' else None
  | EmptyString => None
  end.

Definition expect (c : ascii) (s : string) : option string :=
  match skipSpace s with
  | String c' s' => if Ascii.eqb c c' then Some s' else None
  | EmptyString => None
  end.

Fixpoint members (fuel : nat) (acc : FlatObject) (s : string)
  : option FlatObject :=
  match fuel with
  | O => None
  | S fuel' =>
      match quoted s with
      | Some (key, s1) =>
          match expect ":" s1 with
          | Some s2 =>
              match quoted s2 with
              | Some (value, s3) =>
                  let acc' := JsMap.set key value acc in
                  match skipSpace s3 with
                  | String "," s4 => members fuel' acc' s4
                  | String "}" s4 =>
                      match skipSpace s4 with
                      | EmptyString => Some acc'
                      | _ => None
                      end
                  | _ => None
                  end
              | None => None
              end
          | None => None
          end
      | None => None
      end
  end.

Definition parseFlat (s : string) : option FlatObject :=
  match expect "{" s with
  | Some s1 =>
      match skipSpace s1 with
      | String "}" s2 =>
          match skipSpace s2 with
          | EmptyString => Some JsMap.empty
          | _ => None
          end
      | _ => members (String.length s) JsMap.empty s1
      end
  | None => None
  end.

Definition stringifyFlat (o : FlatObject) : string :=
  "{" ++ join "," (map (fun kv : string * string =>
                          dq ++ fst kv ++ dq ++ ":" ++ dq ++ snd kv ++ dq) o)
      ++ "}".

Definition flatRuntime : ToolHandler.Runtime FlatObject :=
  ToolHandler.mkRuntime parseFlat stringifyFlat
    (fun k => "0.k3x9q2m7p1z" ++ showNat k).

(** The text [read_file({"path":"a.txt"})], bare and in backquotes. *)
Definition argsText : string :=
  "{" ++ dq ++ "path" ++ dq ++ ":" ++ dq ++ "a.txt" ++ dq ++ "}".

Definition callText : string := "read_file(" ++ argsText ++ ")".

Definition quotedCallText : string := "`" ++ callText ++ "`".

Definition assistant (text : string) : Message := msg "assistant" text.

(** A clock that advances by one millisecond per read. *)
Definition tickingClock (k : nat) : Z := (1700000000000 + Z.of_nat k)%Z.

(** A backend whose new thread has id [t1] and answers [Hello]. *)
Definition helloThread : CodexClient.Thread :=
  CodexClient.mkThread (Some "t1")
    (fun _ => CodexClient.ResultString "Hello")
    (fun _ => CodexClient.mkStreamed
                [CodexClient.ItemCompleted
                   (Some (CodexClient.mkItem "text" (Some "Hello") None))]
                None).

Definition helloCodex : CodexClient.Codex :=
  CodexClient.mkCodex helloThread (fun _ => helloThread).

(** A backend whose stream reports an error and then ends. *)
Definition failingThread : CodexClient.Thread :=
  CodexClient.mkThread (Some "t1")
    (fun _ => CodexClient.RunThrows "boom")
    (fun _ => CodexClient.mkStreamed [CodexClient.SdkError (Some "boom")] None).

Definition failingCodex : CodexClient.Codex :=
  CodexClient.mkCodex failingThread (fun _ => failingThread).

Definition noTools : ToolHandler.ToolFlags :=
  ToolHandler.mkToolFlags None None None.

(** [{ model, messages: [{role:'user', content:'hi'}], session_id: 's1',
    stream }] *)
Definition hiRequest (streaming : bool) : Server.Request :=
  Server.mkRequest "gpt-4o" [msg "user" "hi"] (Some "s1") (Some streaming)
    noTools.

Definition freshWorld : SessionManager.World :=
  SessionManager.start tickingClock (Some 3600000%Z).

Definition handle (streaming : bool) : Server.Reply * SessionManager.World :=
  Server.chatCompletions flatRuntime Tools.toolRegistry helloCodex
    "chatcmpl-abc" (hiRequest streaming) freshWorld.

(** A clock that stands at [0] for its first three reads and at
    [10000000] afterwards. *)
Definition jumpClock (k : nat) : Z :=
  if (k <? 3)%nat then 0%Z else 10000000%Z.

(** A manager with the default TTL of one hour that served session
    [old] at time [0] and session [new] at time [10000000]. *)
Definition sweepWorld : SessionManager.World :=
  SessionManager.run jumpClock None
    [SessionManager.ProcessMessages [msg "user" "a"] (Some "old");
     SessionManager.ProcessMessages [msg "user" "b"] (Some "new")].

(** A manager that has seen message [A] on session [s1]. *)
Definition oneTurnWorld : SessionManager.World :=
  SessionManager.run tickingClock None
    [SessionManager.ProcessMessages [msg "user" "A"] (Some "s1")].

(** [{ model, messages: [{role:'user', content:'hi'}], stream }], with
    no session id. *)
Definition statelessRequest (streaming : bool) : Server.Request :=
  Server.mkRequest "gpt-4o" [msg "user" "hi"] None (Some streaming) noTools.


(** A request with no messages. *)
Definition emptyRequest : Server.Request :=
  Server.mkRequest "gpt-4o" [] (Some "s1") (Some false) noTools.

Definition serve (body : Server.Request)
  : Server.Reply * SessionManager.World :=
  Server.chatCompletions flatRuntime Tools.toolRegistry helloCodex
    "chatcmpl-abc" body freshWorld.

End Samples.

(* ================================================================== *)
(** * Properties *)

Import Js Models.

(** ** JavaScript helpers *)

Lemma nonEmpty_false (s : string) : nonEmpty s = false <-> s = "".
Proof.
  unfold nonEmpty. rewrite negb_false_iff. apply String.eqb_eq.
Qed.

Lemma truthy_false (v : option string) :
  truthy v = false <-> v = None \/ v = Some "".
Proof.
  destruct v as [s|]; simpl.
  - rewrite nonEmpty_false. split.
    + intros ->. now right.
    + intros [H|H]; congruence.
  - split; auto.
Qed.

Lemma isLit_true_iff (v : option string) (lit : string) :
  isLit v lit = true <-> v = Some lit.
Proof.
  destruct v as [s|]; simpl.
  - rewrite String.eqb_eq. split; congruence.
  - split; discriminate.
Qed.

Lemma orEmpty_truthy (v : option string) :
  truthy v = true -> v = Some (orEmpty v).
Proof.
  destruct v as [s|]; simpl; [|discriminate].
  now intros ->.
Qed.

(** ** Message adapter: validation *)

Section Validation.
Import MessageAdapter.

Lemma includes_roles_false (m : Message) :
  includes roles (role m) = false <-> roleOutside m.
Proof.
  unfold includes, roleOutside. split.
  - intros H r Hr Heq.
    assert (Hex : existsb (isLit (role m)) roles = true).
    { apply existsb_exists. exists r. split; [exact Hr|].
      now apply isLit_true_iff. }
    congruence.
  - intros H. destruct (existsb (isLit (role m)) roles) eqn:E; [|reflexivity].
    apply existsb_exists in E. destruct E as (r & Hr & Hlit).
    apply isLit_true_iff in Hlit. now elim (H r Hr).
Qed.

Lemma failsChecks_iff (m : Message) :
  failsChecks m = true <-> lacksRole m \/ roleOutside m \/ emptyUser m.
Proof.
  unfold failsChecks, lacksRole, emptyUser, emptyContent.
  rewrite !orb_true_iff, andb_true_iff, !negb_true_iff.
  rewrite includes_roles_false, isLit_true_iff, !truthy_false.
  split.
  - intros [[[H|H]|H]|H]; auto.
    right. left. intros r Hr. rewrite H. intros [= <-].
    simpl in Hr. intuition discriminate.
  - intros [H|[H|H]]; auto.
Qed.

Lemma validateFrom_valid (i : nat) (messages : list Message) :
  valid (validateFrom i messages) = negb (existsb failsChecks messages).
Proof.
  revert i. induction messages as [|m rest IH]; intros i;
    cbn [validateFrom existsb].
  - reflexivity.
  - unfold failsChecks at 1.
    destruct (negb (truthy (role m))); [reflexivity|].
    destruct (negb (includes roles (role m))); [reflexivity|].
    destruct (isLit (role m) "user" && negb (truthy (content m)));
      [reflexivity|].
    simpl. apply IH.
Qed.

Lemma validateFrom_error (i : nat) (messages : list Message) :
  error (validateFrom i messages) = None
  <-> valid (validateFrom i messages) = true.
Proof.
  revert i. induction messages as [|m rest IH]; intros i;
    cbn [validateFrom].
  - simpl. tauto.
  - destruct (negb (truthy (role m))); [simpl; split; discriminate|].
    destruct (negb (includes roles (role m))); [simpl; split; discriminate|].
    destruct (isLit (role m) "user" && negb (truthy (content m)));
      [simpl; split; discriminate|].
    apply IH.
Qed.

(** C3. [validateMessages] answers invalid exactly when the list is
    empty, or some entry has no role, or some entry's role is none of
    system, user, assistant, tool, or some user entry has empty content;
    an invalid answer always carries an error text and a valid one never
    does; the one-element list holding a user message with content [""]
    is invalid. *)
Theorem validateMessages_invalid_iff (messages : list Message) :
  (valid (validateMessages messages) = false <-> rejected messages)
  /\ (valid (validateMessages messages) = true <-> ~ rejected messages)
  /\ (error (validateMessages messages) = None
      <-> valid (validateMessages messages) = true)
  /\ validateMessages [msg "user" ""]
     = invalid "User message at index 0 missing content".
Proof.
  assert (Hiff : valid (validateMessages messages) = false
                 <-> rejected messages).
  { unfold validateMessages, rejected.
    destruct messages as [|m rest]; simpl Nat.eqb; cbv iota.
    - simpl. split; auto.
    - rewrite validateFrom_valid, negb_false_iff, existsb_exists.
      split.
      + intros (x & Hin & Hx). apply failsChecks_iff in Hx.
        right. destruct Hx as [Hx|[Hx|Hx]]; eauto.
      + intros [H|H]; [discriminate|].
        assert (exists x, In x (m :: rest)
                  /\ (lacksRole x \/ roleOutside x \/ emptyUser x))
          as (x & Hin & Hx).
        { destruct H as [(x & ? & ?)|[(x & ? & ?)|(x & ? & ?)]];
            exists x; auto. }
        exists x. split; [exact Hin|]. now apply failsChecks_iff. }
  split; [exact Hiff|]. split; [|split; [|reflexivity]].
  - split.
    + intros Hv Hr. apply Hiff in Hr. congruence.
    + intros Hn. destruct (valid (validateMessages messages)) eqn:E; auto.
      exfalso. apply Hn. now apply Hiff.
  - unfold validateMessages.
    destruct messages; simpl Nat.eqb; cbv iota.
    + simpl. split; discriminate.
    + apply validateFrom_error.
Qed.

End Validation.

(** ** Message adapter: the system prompt *)

Section SystemPrompt.
Import MessageAdapter.

Lemma promptStep_systemMessages (acc : Acc) (m : Message) :
  systemMessages (promptStep acc m)
  = (systemMessages acc ++ systemContents [m])%list.
Proof.
  unfold promptStep, systemContents, isSystem. cbn [filter].
  destruct (isLit (role m) "system") eqn:Esys; cbn [andb].
  - destruct (truthy (content m)); cbn [map systemMessages push].
    + reflexivity.
    + now rewrite app_nil_r.
  - cbn [map]. rewrite app_nil_r.
    destruct (isLit (role m) "user"); [reflexivity|].
    destruct (isLit (role m) "assistant"); [reflexivity|].
    destruct (isLit (role m) "tool"); reflexivity.
Qed.

Lemma systemContents_cons (m : Message) (ms : list Message) :
  systemContents (m :: ms) = (systemContents [m] ++ systemContents ms)%list.
Proof.
  unfold systemContents. cbn [filter].
  destruct (isSystem m && truthy (content m)); reflexivity.
Qed.

Lemma fold_systemMessages (ms : list Message) (acc : Acc) :
  systemMessages (fold_left promptStep ms acc)
  = (systemMessages acc ++ systemContents ms)%list.
Proof.
  revert acc. induction ms as [|m ms IH]; intros acc; cbn [fold_left].
  - unfold systemContents. simpl. now rewrite app_nil_r.
  - rewrite IH, promptStep_systemMessages, (systemContents_cons m ms).
    now rewrite <- app_assoc.
Qed.

Lemma systemContents_nil (ms : list Message) :
  systemContents ms = []
  <-> forall m, In m ms -> role m = Some "system" -> emptyContent m.
Proof.
  unfold systemContents, isSystem, emptyContent.
  induction ms as [|m ms IH]; cbn [filter].
  - simpl. split; [intros _ ? []|intros _; reflexivity].
  - destruct (isLit (role m) "system" && truthy (content m)) eqn:E.
    + cbn [map]. split; [discriminate|]. intros H. exfalso.
      apply andb_true_iff in E. destruct E as [Er Ec].
      apply isLit_true_iff in Er.
      pose proof (H m (or_introl eq_refl) Er) as Hm.
      apply truthy_false in Hm. congruence.
    + rewrite IH. split.
      * intros H x [<-|Hin] Hr; [|now apply H].
        apply truthy_false. apply isLit_true_iff in Hr.
        rewrite Hr in E. exact E.
      * intros H x Hin. apply H. now right.
Qed.

Lemma systemPrompt_eq (messages : list Message) :
  snd (messagesToPrompt messages)
  = match systemContents messages with
    | [] => None
    | cs => Some (join nl2 cs)
    end.
Proof.
  unfold messagesToPrompt. cbn [snd].
  rewrite fold_systemMessages. cbn [systemMessages app].
  destruct (systemContents messages); reflexivity.
Qed.

(** C5, as the code has it. The system prompt returned by
    [messagesToPrompt] is the blank-line join of the non-empty contents
    of the system-role messages, in their original order, and it is
    absent exactly when no system-role message has non-empty content. *)
Theorem messagesToPrompt_systemPrompt (messages : list Message) :
  snd (messagesToPrompt messages)
  = match systemContents messages with
    | [] => None
    | cs => Some (join nl2 cs)
    end
  /\ (snd (messagesToPrompt messages) = None
      <-> forall m, In m messages ->
                    role m = Some "system" -> emptyContent m).
Proof.
  split; [apply systemPrompt_eq|].
  rewrite systemPrompt_eq, <- systemContents_nil.
  destruct (systemContents messages); split; congruence.
Qed.

(** C5, as the specification words it, fails: a system message whose
    content is empty is skipped by the code, so the list holding only
    such a message has a system message and yet no system prompt. *)
Lemma messagesToPrompt_systemPrompt_counterexample :
  ~ (forall messages,
        snd (messagesToPrompt messages) = spec_systemPrompt messages).
Proof.
  intros H. specialize (H [msg "system" ""]). discriminate H.
Qed.

(** The two readings agree whenever every system message has content. *)
Lemma systemPrompt_agrees_with_spec (messages : list Message) :
  (forall m, In m messages -> role m = Some "system" ->
             truthy (content m) = true) ->
  snd (messagesToPrompt messages) = spec_systemPrompt messages.
Proof.
  intros H.
  rewrite systemPrompt_eq.
  unfold spec_systemPrompt, systemContents.
  assert (Hf : filter (fun m => isSystem m && truthy (content m)) messages
               = filter isSystem messages).
  { apply filter_ext_in. intros m Hin. unfold isSystem.
    destruct (isLit (role m) "system") eqn:E; [|reflexivity].
    apply isLit_true_iff in E. now rewrite (H m Hin E). }
  rewrite Hf. destruct (filter isSystem messages); reflexivity.
Qed.

End SystemPrompt.

(** ** The map *)

Section JsMapFacts.
Context {V : Type}.
Implicit Types (m : JsMap.t V) (k : string) (v : V).

Lemma get_set_same m k v : JsMap.get k (JsMap.set k v m) = Some v.
Proof.
  induction m as [|[k' v'] m IH]; cbn [JsMap.set JsMap.get].
  - now rewrite String.eqb_refl.
  - destruct (k' =? k) eqn:E; cbn [JsMap.get].
    + now rewrite String.eqb_refl.
    + now rewrite E.
Qed.

Lemma get_set_other m k k' v :
  k' <> k -> JsMap.get k' (JsMap.set k v m) = JsMap.get k' m.
Proof.
  intros Hne. induction m as [|[k0 v0] m IH]; cbn [JsMap.set JsMap.get].
  - apply String.eqb_neq in Hne. rewrite String.eqb_sym in Hne.
    now rewrite Hne.
  - destruct (k0 =? k) eqn:E; cbn [JsMap.get].
    + apply String.eqb_eq in E. subst k0.
      assert (E' : (k =? k') = false).
      { apply String.eqb_neq. congruence. }
      now rewrite E'.
    + now rewrite IH.
Qed.

Lemma get_set_inv m k k' v v' :
  JsMap.get k' (JsMap.set k v m) = Some v' ->
  (k' = k /\ v' = v) \/ (k' <> k /\ JsMap.get k' m = Some v').
Proof.
  destruct (string_dec k' k) as [->|Hne].
  - rewrite get_set_same. intros [= <-]. now left.
  - rewrite get_set_other by assumption. now right.
Qed.

Lemma set_set m k v1 v2 :
  JsMap.set k v2 (JsMap.set k v1 m) = JsMap.set k v2 m.
Proof.
  induction m as [|[k' v'] m IH]; cbn [JsMap.set].
  - now rewrite String.eqb_refl.
  - destruct (k' =? k) eqn:E; cbn [JsMap.set].
    + now rewrite String.eqb_refl.
    + now rewrite E, IH.
Qed.

Lemma get_delete m k k' :
  JsMap.get k' (JsMap.delete k m)
  = if k =? k' then None else JsMap.get k' m.
Proof.
  unfold JsMap.delete.
  induction m as [|[k0 v0] m IH]; cbn [filter JsMap.get fst].
  - now destruct (k =? k').
  - destruct (k0 =? k) eqn:E; cbn [negb JsMap.get].
    + apply String.eqb_eq in E. subst k0. rewrite IH.
      now destruct (k =? k').
    + rewrite IH. destruct (k0 =? k') eqn:E'; [|reflexivity].
      apply String.eqb_eq in E'. subst k0.
      rewrite String.eqb_sym in E. now rewrite E.
Qed.

Lemma get_In m k v : JsMap.get k m = Some v -> In (k, v) m.
Proof.
  induction m as [|[k' v'] m IH]; cbn [JsMap.get]; [discriminate|].
  destruct (k' =? k) eqn:E.
  - apply String.eqb_eq in E. intros [= ->]. subst. now left.
  - intros H. right. now apply IH.
Qed.

Lemma wf_In_get m k v :
  JsMap.wf m = true -> In (k, v) m -> JsMap.get k m = Some v.
Proof.
  induction m as [|[k' v'] m IH]; cbn [JsMap.wf JsMap.get]; [intros _ []|].
  intros Hwf [Heq|Hin]; apply andb_true_iff in Hwf; destruct Hwf as [Hk Hwf].
  - injection Heq as -> ->. now rewrite String.eqb_refl.
  - specialize (IH Hwf Hin).
    destruct (k' =? k) eqn:E; [|exact IH].
    apply String.eqb_eq in E. subst k'.
    unfold JsMap.has in Hk. now rewrite IH in Hk.
Qed.

Lemma has_keys m k : JsMap.has k m = true <-> In k (JsMap.keys m).
Proof.
  unfold JsMap.has, JsMap.keys.
  induction m as [|[k' v'] m IH]; cbn [JsMap.get map fst In].
  - split; [discriminate|tauto].
  - destruct (k' =? k) eqn:E.
    + apply String.eqb_eq in E. split; auto.
    + rewrite IH. apply String.eqb_neq in E. split; [auto|].
      intros [?|?]; [contradiction|assumption].
Qed.

Lemma has_set m k k' v :
  JsMap.has k' (JsMap.set k v m) = (k =? k') || JsMap.has k' m.
Proof.
  unfold JsMap.has. destruct (k =? k') eqn:E.
  - apply String.eqb_eq in E. subst. now rewrite get_set_same.
  - apply String.eqb_neq in E. rewrite get_set_other by congruence.
    reflexivity.
Qed.

Lemma wf_set m k v : JsMap.wf m = true -> JsMap.wf (JsMap.set k v m) = true.
Proof.
  induction m as [|[k' v'] m IH]; cbn [JsMap.set JsMap.wf]; [reflexivity|].
  intros Hwf. apply andb_true_iff in Hwf. destruct Hwf as [Hk Hwf].
  destruct (k' =? k) eqn:E; cbn [JsMap.wf].
  - apply String.eqb_eq in E. subst k'. now rewrite Hk, Hwf.
  - rewrite has_set, String.eqb_sym, E, IH by assumption.
    cbn [orb]. now rewrite Hk.
Qed.

Lemma wf_delete m k : JsMap.wf m = true -> JsMap.wf (JsMap.delete k m) = true.
Proof.
  induction m as [|[k' v'] m IH]; [reflexivity|].
  cbn [JsMap.wf]. intros Hwf.
  apply andb_true_iff in Hwf. destruct Hwf as [Hk Hwf].
  unfold JsMap.delete in *. cbn [filter fst].
  destruct (negb (k' =? k)); [|now apply IH].
  cbn [JsMap.wf]. rewrite IH by assumption.
  unfold JsMap.has in *. fold (JsMap.delete k m). rewrite get_delete.
  destruct (k =? k'); [reflexivity|]. now rewrite Hk.
Qed.

End JsMapFacts.

(** ** Session manager *)

Section SessionManagerFacts.
Import SessionManager.

Ltac step_M :=
  unfold bind, ret, getSessions, setSessions, getTTL, newDate;
  cbn [fst snd manager sessions defaultTTL clock reads].

Lemma nonEmpty_true (s : string) : s <> "" -> nonEmpty s = true.
Proof.
  intros H. destruct (nonEmpty s) eqn:E; [reflexivity|].
  now apply nonEmpty_false in E.
Qed.

Lemma fold_storeStep (msgs : list Message) (s : Session) :
  let kept := filter (fun m => negb (isLit (role m) "system")) msgs in
  fold_left storeStep msgs s
  = mkSession (sessionId s) (threadId s) (messages s ++ kept)%list
              (createdAt s) (lastActive s)
              (messageCount s + List.length kept).
Proof.
  cbv zeta. revert s.
  induction msgs as [|m msgs IH]; intros s; cbn [fold_left filter].
  - destruct s; cbn. now rewrite app_nil_r, Nat.add_0_r.
  - rewrite IH. unfold storeStep.
    destruct (negb (isLit (role m) "system")); [|reflexivity].
    destruct s; cbn. rewrite <- app_assoc. cbn.
    f_equal. lia.
Qed.

(** C4. For a session id that is present (a non-empty string),
    [processMessages] returns the session's prior history followed by
    the non-system entries of the input, in order, together with the
    session id; afterwards the store holds under that id a session with
    exactly this history, whose [lastActive] is the clock value read
    last during the call; an existing session keeps its thread id and
    creation date, a missing one is created with an empty thread id; no
    other session is touched. *)
Theorem processMessages_accumulates
  (w : World) (msgs : list Message) (sid : string) :
  sid <> "" ->
  let store := sessions (manager w) in
  let prior := match JsMap.get sid store with
               | Some s => messages s
               | None => []
               end in
  let history :=
    (prior ++ filter (fun m => negb (isLit (role m) "system")) msgs)%list in
  let r := processMessages msgs (Some sid) w in
  fst r = (history, Some sid)
  /\ (exists s',
         JsMap.get sid (sessions (manager (snd r))) = Some s'
         /\ messages s' = history
         /\ (reads w < reads (snd r))%nat
         /\ lastActive s' = clock w (pred (reads (snd r)))
         /\ match JsMap.get sid store with
            | Some s => threadId s' = threadId s
                        /\ createdAt s' = createdAt s
            | None => threadId s' = ""
                      /\ createdAt s' = clock w (reads w)
            end)
  /\ (forall other, other <> sid ->
        JsMap.get other (sessions (manager (snd r))) = JsMap.get other store).
Proof.
  intros Hsid. cbv zeta. unfold processMessages.
  cbn [truthy orEmpty]. rewrite (nonEmpty_true sid Hsid). cbn [negb].
  step_M.
  destruct (JsMap.get sid (sessions (manager w))) as [s|] eqn:Hget; step_M.
  - rewrite fold_storeStep. cbn [messages withLastActive].
    split; [reflexivity|]. split.
    + eexists. rewrite get_set_same. split; [reflexivity|].
      cbn. repeat split; lia.
    + intros other Hne. now rewrite get_set_other.
  - step_M. rewrite fold_storeStep. cbn [messages withLastActive].
    split; [reflexivity|]. split.
    + eexists. rewrite get_set_same. split; [reflexivity|].
      cbn. repeat split; lia.
    + intros other Hne. rewrite !get_set_other by assumption.
      reflexivity.
Qed.

(** With no session id, or an empty one, the input comes back as it is
    and nothing is touched. *)
Lemma processMessages_stateless (w : World) (msgs : list Message)
  (sid : option string) :
  truthy sid = false ->
  processMessages msgs sid w = ((msgs, None), w).
Proof.
  intros H. unfold processMessages. now rewrite H.
Qed.

(** C6. On an existing session [setThreadId] is idempotent and the last
    write wins: after one call the thread id is the one given, a second
    call with the same id changes nothing, and a later call with
    another id replaces it. *)
Theorem setThreadId_last_write_wins
  (w : World) (sid t1 t2 : string) (s : Session) :
  JsMap.get sid (sessions (manager w)) = Some s ->
  let w1 := snd (setThreadId sid t1 w) in
  let w2 := snd (setThreadId sid t1 w1) in
  let w3 := snd (setThreadId sid t2 w2) in
  fst (getSession sid w1) = Some (withThreadId s t1)
  /\ w2 = w1
  /\ fst (getThreadId sid w2) = Some t1
  /\ fst (getSession sid w3) = Some (withThreadId s t2)
  /\ fst (getThreadId sid w3) = Some t2.
Proof.
  intros Hget. cbv zeta.
  assert (H1 : snd (setThreadId sid t1 w)
               = mkWorld (clock w) (reads w)
                   (mkManager
                      (JsMap.set sid (withThreadId s t1) (sessions (manager w)))
                      (defaultTTL (manager w)))).
  { unfold setThreadId. step_M. rewrite Hget. reflexivity. }
  rewrite H1.
  assert (H2 : forall t,
             snd (setThreadId sid t
                    (mkWorld (clock w) (reads w)
                       (mkManager
                          (JsMap.set sid (withThreadId s t1)
                             (sessions (manager w)))
                          (defaultTTL (manager w)))))
             = mkWorld (clock w) (reads w)
                 (mkManager
                    (JsMap.set sid (withThreadId s t) (sessions (manager w)))
                    (defaultTTL (manager w)))).
  { intros t. unfold setThreadId. step_M. rewrite get_set_same.
    step_M. now rewrite set_set. }
  rewrite !H2. unfold getSession, getThreadId. step_M.
  rewrite !get_set_same. cbn. repeat split; reflexivity.
Qed.

(** C10. [setThreadId] on a session id that the store does not hold
    returns normally and leaves the manager, clock included, exactly as
    it was. *)
Theorem setThreadId_unknown_noop (w : World) (sid tid : string) :
  JsMap.get sid (sessions (manager w)) = None ->
  setThreadId sid tid w = (tt, w).
Proof.
  intros Hget. unfold setThreadId. step_M. now rewrite Hget.
Qed.

(** *** Expiry *)

Lemma sweep_get (now ttl : Z) (k : string)
  (l : list (string * Session)) (store : JsMap.t Session) :
  JsMap.get k (fold_left (sweepStep now ttl) l store)
  = if existsb (expiredKey now ttl k) l then None else JsMap.get k store.
Proof.
  revert store. induction l as [|[k0 s0] l IH]; intros store;
    cbn [fold_left existsb]; [reflexivity|].
  rewrite IH. unfold sweepStep, expiredKey at 2. cbn [fst snd].
  destruct (now >? lastActive s0 + ttl)%Z.
  - rewrite get_delete. rewrite andb_true_r.
    destruct (k0 =? k); cbn [orb].
    + now destruct (existsb (expiredKey now ttl k) l).
    + reflexivity.
  - now rewrite andb_false_r.
Qed.

Lemma cleanup_sessions (w : World) :
  sessions (manager (snd (cleanup w)))
  = fold_left (sweepStep (clock w (reads w)) (defaultTTL (manager w)))
              (sessions (manager w)) (sessions (manager w)).
Proof. reflexivity. Qed.

Lemma cleanup_removes (w : World) (sid : string) (s : Session) :
  JsMap.get sid (sessions (manager w)) = Some s ->
  (clock w (reads w) >? lastActive s + defaultTTL (manager w))%Z = true ->
  JsMap.get sid (sessions (manager (snd (cleanup w)))) = None.
Proof.
  intros Hget Hexp. rewrite cleanup_sessions, sweep_get.
  replace (existsb _ _) with true; [reflexivity|].
  symmetry. apply existsb_exists. exists (sid, s).
  split; [now apply get_In|].
  unfold expiredKey. cbn [fst snd]. now rewrite String.eqb_refl, Hexp.
Qed.

Lemma cleanup_keeps (w : World) (sid : string) (s : Session) :
  JsMap.wf (sessions (manager w)) = true ->
  JsMap.get sid (sessions (manager w)) = Some s ->
  (clock w (reads w) >? lastActive s + defaultTTL (manager w))%Z = false ->
  JsMap.get sid (sessions (manager (snd (cleanup w)))) = Some s.
Proof.
  intros Hwf Hget Hexp. rewrite cleanup_sessions, sweep_get.
  destruct (existsb _ _) eqn:E; [|exact Hget].
  apply existsb_exists in E. destruct E as ([k0 s0] & Hin & Hk).
  unfold expiredKey in Hk. cbn [fst snd] in Hk.
  apply andb_true_iff in Hk. destruct Hk as [Hk Hs0].
  apply String.eqb_eq in Hk. subst k0.
  rewrite (wf_In_get _ _ _ Hwf Hin) in Hget. congruence.
Qed.

Lemma listSessions_ids (toISOString : Z -> string) (w : World) :
  map session_id (fst (listSessions toISOString w))
  = JsMap.keys (sessions (manager w)).
Proof.
  unfold listSessions. step_M. unfold JsMap.keys, JsMap.entries.
  rewrite map_map. apply map_ext. now intros [k s].
Qed.

Lemma listed_iff (toISOString : Z -> string) (w : World) (sid : string) :
  In sid (map session_id (fst (listSessions toISOString w)))
  <-> JsMap.get sid (sessions (manager w)) <> None.
Proof.
  rewrite listSessions_ids, <- has_keys. unfold JsMap.has.
  destruct (JsMap.get sid (sessions (manager w))); split;
    congruence || discriminate.
Qed.

(** C7. One sweep at clock value [now] removes every session with
    [lastActive + TTL < now], which is then missing from
    [listSessions()]; in particular a session last active at
    [now - TTL - 1]. With a TTL that is not negative, a session last
    active at [now] is still stored and still listed after the sweep. *)
Theorem cleanup_expiry
  (toISOString : Z -> string) (w : World) (sid : string) (s : Session) :
  let now := clock w (reads w) in
  let ttl := defaultTTL (manager w) in
  let w' := snd (cleanup w) in
  JsMap.wf (sessions (manager w)) = true ->
  JsMap.get sid (sessions (manager w)) = Some s ->
  ((lastActive s + ttl < now)%Z ->
     JsMap.get sid (sessions (manager w')) = None
     /\ ~ In sid (map session_id (fst (listSessions toISOString w'))))
  /\ (lastActive s = (now - ttl - 1)%Z ->
     JsMap.get sid (sessions (manager w')) = None
     /\ ~ In sid (map session_id (fst (listSessions toISOString w'))))
  /\ ((0 <= ttl)%Z -> lastActive s = now ->
     JsMap.get sid (sessions (manager w')) = Some s
     /\ In sid (map session_id (fst (listSessions toISOString w')))).
Proof.
  cbv zeta. intros Hwf Hget.
  assert (Hrm : (lastActive s + defaultTTL (manager w) < clock w (reads w))%Z ->
                JsMap.get sid (sessions (manager (snd (cleanup w)))) = None
                /\ ~ In sid (map session_id
                               (fst (listSessions toISOString (snd (cleanup w)))))).
  { intros Hlt.
    assert (Hnone : JsMap.get sid (sessions (manager (snd (cleanup w)))) = None).
    { apply cleanup_removes with s; [exact Hget|]. now apply Z.gtb_lt. }
    split; [exact Hnone|]. rewrite listed_iff. congruence. }
  split; [exact Hrm|]. split.
  - intros Heq. apply Hrm. lia.
  - intros Httl Heq.
    assert (Hsome : JsMap.get sid (sessions (manager (snd (cleanup w)))) = Some s).
    { apply cleanup_keeps; [exact Hwf|exact Hget|].
      destruct (_ >? _)%Z eqn:E; [|reflexivity].
      apply Z.gtb_lt in E. lia. }
    split; [exact Hsome|]. rewrite listed_iff. congruence.
Qed.

(** With a negative TTL the sweep removes even a session that was
    active at the very instant of the sweep. *)
Lemma cleanup_negative_ttl (w : World) (sid : string) (s : Session) :
  (defaultTTL (manager w) < 0)%Z ->
  JsMap.get sid (sessions (manager w)) = Some s ->
  lastActive s = clock w (reads w) ->
  JsMap.get sid (sessions (manager (snd (cleanup w)))) = None.
Proof.
  intros Httl Hget Heq. apply cleanup_removes with s; [exact Hget|].
  apply Z.gtb_lt. lia.
Qed.

(** *** The message counter *)

Lemma counts_set (store : JsMap.t Session) (sid : string) (s : Session) :
  countsMessages store ->
  messageCount s = List.length (messages s) ->
  countsMessages (JsMap.set sid s store).
Proof.
  intros Hinv Hs k s' Hget.
  apply get_set_inv in Hget. destruct Hget as [[_ ->]|[_ Hget]].
  - exact Hs.
  - now apply (Hinv k).
Qed.

Lemma counts_delete (store : JsMap.t Session) (sid : string) :
  countsMessages store -> countsMessages (JsMap.delete sid store).
Proof.
  intros Hinv k s'. rewrite get_delete.
  destruct (sid =? k); [discriminate|]. apply Hinv.
Qed.

Lemma counts_sweep (now ttl : Z) (l : list (string * Session))
  (store : JsMap.t Session) :
  countsMessages store ->
  countsMessages (fold_left (sweepStep now ttl) l store).
Proof.
  revert store. induction l as [|e l IH]; intros store Hinv;
    cbn [fold_left]; [exact Hinv|].
  apply IH. unfold sweepStep.
  destruct (now >? _)%Z; [now apply counts_delete|exact Hinv].
Qed.

Lemma counts_pushMessage (s : Session) (m : Message) :
  messageCount s = List.length (messages s) ->
  messageCount (pushMessage s m) = List.length (messages (pushMessage s m)).
Proof.
  intros H. cbn. rewrite length_app. cbn. lia.
Qed.

Lemma counts_storeStep (msgs : list Message) (s : Session) :
  messageCount s = List.length (messages s) ->
  messageCount (fold_left storeStep msgs s)
  = List.length (messages (fold_left storeStep msgs s)).
Proof.
  revert s. induction msgs as [|m msgs IH]; intros s Hs;
    cbn [fold_left]; [exact Hs|].
  apply IH. unfold storeStep.
  destruct (negb _); [now apply counts_pushMessage|exact Hs].
Qed.

Lemma exec_counts (c : Call) (w : World) :
  countsMessages (sessions (manager w)) ->
  countsMessages (sessions (manager (exec c w))).
Proof.
  intros Hinv. destruct c as [msgs sid|sid m|sid tid|sid| |]; cbn [exec].
  - unfold processMessages. destruct (negb (truthy sid)); [exact Hinv|].
    step_M.
    destruct (JsMap.get (orEmpty sid) (sessions (manager w))) as [s|] eqn:Hget;
      step_M.
    + apply counts_set; [exact Hinv|]. apply counts_storeStep.
      cbn. now apply (Hinv (orEmpty sid)).
    + step_M. apply counts_set.
      * now apply counts_set.
      * apply counts_storeStep. reflexivity.
  - unfold addAssistantResponse. step_M.
    destruct (JsMap.get sid (sessions (manager w))) as [s|] eqn:Hget;
      step_M; [|exact Hinv].
    apply counts_set; [exact Hinv|].
    apply (counts_pushMessage s m). now apply (Hinv sid).
  - unfold setThreadId. step_M.
    destruct (JsMap.get sid (sessions (manager w))) as [s|] eqn:Hget;
      step_M; [|exact Hinv].
    apply counts_set; [exact Hinv|]. cbn. now apply (Hinv sid).
  - unfold deleteSession. step_M. now apply counts_delete.
  - rewrite cleanup_sessions. now apply counts_sweep.
  - intros k s. discriminate.
Qed.

(** C9. In every state a manager reaches from its construction through
    any sequence of [processMessages], [addAssistantResponse],
    [setThreadId], [deleteSession], [cleanup] and [clear], each stored
    session has [messageCount] equal to the length of its history. *)
Theorem messageCount_invariant
  (clk : nat -> Z) (ttl : option Z) (calls : list Call) :
  countsMessages (sessions (manager (run clk ttl calls))).
Proof.
  unfold run.
  assert (H0 : countsMessages (sessions (manager (start clk ttl)))).
  { intros k s. discriminate. }
  revert H0. generalize (start clk ttl).
  induction calls as [|c calls IH]; intros w Hw; cbn [fold_left].
  - exact Hw.
  - apply IH. now apply exec_counts.
Qed.

(** Every reachable store is a well-formed map. *)
Lemma exec_wf (c : Call) (w : World) :
  JsMap.wf (sessions (manager w)) = true ->
  JsMap.wf (sessions (manager (exec c w))) = true.
Proof.
  intros Hwf. destruct c as [msgs sid|sid m|sid tid|sid| |]; cbn [exec].
  - unfold processMessages. destruct (negb (truthy sid)); [exact Hwf|].
    step_M.
    destruct (JsMap.get (orEmpty sid) (sessions (manager w))); step_M.
    + now apply wf_set.
    + step_M. now apply wf_set, wf_set.
  - unfold addAssistantResponse. step_M.
    destruct (JsMap.get sid (sessions (manager w))); step_M;
      [now apply wf_set|exact Hwf].
  - unfold setThreadId. step_M.
    destruct (JsMap.get sid (sessions (manager w))); step_M;
      [now apply wf_set|exact Hwf].
  - unfold deleteSession. step_M. now apply wf_delete.
  - rewrite cleanup_sessions.
    generalize (sessions (manager w)) at 1 as l.
    revert Hwf. generalize (sessions (manager w)) as store.
    intros store Hwf l. revert store Hwf.
    induction l as [|e l IH]; intros store Hwf; cbn [fold_left];
      [exact Hwf|].
    apply IH. unfold sweepStep.
    destruct (_ >? _)%Z; [now apply wf_delete|exact Hwf].
  - reflexivity.
Qed.

Lemma run_wf (clk : nat -> Z) (ttl : option Z) (calls : list Call) :
  JsMap.wf (sessions (manager (run clk ttl calls))) = true.
Proof.
  unfold run.
  assert (H0 : JsMap.wf (sessions (manager (start clk ttl))) = true)
    by reflexivity.
  revert H0. generalize (start clk ttl).
  induction calls as [|c calls IH]; intros w Hw; cbn [fold_left].
  - exact Hw.
  - apply IH. now apply exec_wf.
Qed.

End SessionManagerFacts.

(** ** Tool-call extraction *)

Section ExtractFacts.
Import ToolHandler Samples.
Context {J : Type}.
Variable rt : Runtime J.
Variable registry : Tools.ToolRegistry.

Lemma collect_fst (st : list ToolCall * nat) (m : string * string) :
  fst (collect rt registry st m) = fst st
  \/ exists c, fst (collect rt registry st m) = (fst st ++ [c])%list
               /\ validMatch rt registry m.
Proof.
  destruct m as [functionName argsStr], st as [toolCalls k].
  unfold collect, validMatch. cbn [fst snd].
  destruct (Tools.get functionName registry) eqn:Hreg; [|now left].
  destruct (JSON_parse rt argsStr) eqn:Hparse; [|now left].
  right. eexists. cbn [fst]. split; [reflexivity|]. split; discriminate.
Qed.

Lemma collect_valid (st : list ToolCall * nat) (m : string * string) :
  validMatch rt registry m -> fst (collect rt registry st m) <> [].
Proof.
  destruct m as [functionName argsStr], st as [toolCalls k].
  unfold collect, validMatch. cbn [fst snd]. intros [Hreg Hparse].
  destruct (Tools.get functionName registry); [|contradiction].
  destruct (JSON_parse rt argsStr); [|contradiction].
  cbn [fst]. now destruct toolCalls.
Qed.

Lemma fold_collect_grows (ms : list (string * string))
  (st : list ToolCall * nat) :
  fst st <> [] -> fst (fold_left (collect rt registry) ms st) <> [].
Proof.
  revert st. induction ms as [|m ms IH]; intros st Hst; cbn [fold_left].
  - exact Hst.
  - apply IH. destruct (collect_fst st m) as [->|(c & -> & _)].
    + exact Hst.
    + now destruct (fst st).
Qed.

Lemma fold_collect_nil (ms : list (string * string))
  (st : list ToolCall * nat) :
  fst (fold_left (collect rt registry) ms st) = []
  <-> fst st = [] /\ forall m, In m ms -> ~ validMatch rt registry m.
Proof.
  revert st. induction ms as [|m ms IH]; intros st; cbn [fold_left].
  - split; [intros H; split; [exact H|intros ? []]|tauto].
  - rewrite IH. split.
    + intros [Hnil Hrest].
      destruct (collect_fst st m) as [Heq|(c & Heq & _)].
      * rewrite Heq in Hnil. split; [exact Hnil|].
        intros x [<-|Hin]; [|now apply Hrest].
        intros Hv. apply (collect_valid st) in Hv.
        rewrite Heq in Hv. contradiction.
      * rewrite Heq in Hnil. now destruct (fst st).
    + intros [Hnil Hall]. split.
      * destruct (collect_fst st m) as [Heq|(c & _ & Hv)].
        -- now rewrite Heq.
        -- now elim (Hall m (or_introl eq_refl)).
      * intros x Hin. apply Hall. now right.
Qed.

Lemma extractToolCalls_text (text : string) :
  text <> "" ->
  extractToolCalls rt registry (assistant text)
  = match fst (fold_left (collect rt registry) (codeBlockMatches text)
                 (fold_left (collect rt registry)
                    (functionCallMatches text) ([], 0))) with
    | [] => None
    | toolCalls => Some toolCalls
    end.
Proof.
  intros Hne. unfold extractToolCalls, assistant, msg.
  cbn [content truthy orEmpty].
  destruct (nonEmpty text) eqn:E; [reflexivity|].
  now apply nonEmpty_false in E.
Qed.

Lemma matches_callText :
  functionCallMatches callText = [("read_file", argsText)]
  /\ codeBlockMatches callText = []
  /\ functionCallMatches quotedCallText = [("read_file", argsText)]
  /\ codeBlockMatches quotedCallText = [].
Proof. repeat split; vm_compute; reflexivity. Qed.

Lemma callText_nonempty : callText <> "" /\ quotedCallText <> "".
Proof. split; vm_compute; discriminate. Qed.

Lemma extract_registered (v : J) (text : string) :
  text <> "" ->
  functionCallMatches text = [("read_file", argsText)] ->
  codeBlockMatches text = [] ->
  Tools.get "read_file" registry <> None ->
  JSON_parse rt argsText = Some v ->
  extractToolCalls rt registry (assistant text)
  = Some [mkToolCall (callId rt 0) "function"
            (mkFunctionCall "read_file" (JSON_stringify rt v))].
Proof.
  intros Hne Hf Hc Hreg Hparse.
  rewrite extractToolCalls_text, Hf, Hc by assumption.
  cbn [fold_left]. unfold collect.
  destruct (Tools.get "read_file" registry); [|contradiction].
  now rewrite Hparse.
Qed.

Lemma extract_unregistered (text : string) :
  text <> "" ->
  functionCallMatches text = [("read_file", argsText)] ->
  codeBlockMatches text = [] ->
  Tools.get "read_file" registry = None ->
  extractToolCalls rt registry (assistant text) = None.
Proof.
  intros Hne Hf Hc Hreg.
  rewrite extractToolCalls_text, Hf, Hc by assumption.
  cbn [fold_left]. unfold collect. now rewrite Hreg.
Qed.

(** C8. On the text [read_file({"path":"a.txt"})], bare or in
    backquotes, with [read_file] registered, [extractToolCalls] returns
    exactly one call, named [read_file], whose arguments are the JSON
    text of the value that [{"path":"a.txt"}] parses to (and so parse
    back to that value); with [read_file] not registered it returns
    absent. On every message it never returns an empty list, and it
    returns absent exactly when no match of either pattern has a
    registered name and an argument text that parses. *)
Theorem extractToolCalls_spec (message : Message) (v : J) :
  (Tools.get "read_file" registry <> None ->
   JSON_parse rt argsText = Some v ->
   let expected :=
     [mkToolCall (callId rt 0) "function"
        (mkFunctionCall "read_file" (JSON_stringify rt v))] in
   extractToolCalls rt registry (assistant callText) = Some expected
   /\ extractToolCalls rt registry (assistant quotedCallText) = Some expected
   /\ (JSON_parse rt (JSON_stringify rt v) = Some v ->
       map (fun c => JSON_parse rt (fn_arguments (function c))) expected
       = [Some v]))
  /\ (Tools.get "read_file" registry = None ->
      extractToolCalls rt registry (assistant callText) = None
      /\ extractToolCalls rt registry (assistant quotedCallText) = None)
  /\ extractToolCalls rt registry message <> Some []
  /\ (extractToolCalls rt registry message = None
      <-> forall m,
            In m (functionCallMatches (orEmpty (content message))
                  ++ codeBlockMatches (orEmpty (content message)))%list ->
            ~ validMatch rt registry m).
Proof.
  destruct matches_callText as (Hf & Hc & Hfq & Hcq).
  destruct callText_nonempty as [Hne Hneq].
  split; [|split; [|split]].
  - intros Hreg Hparse. cbv zeta. split; [|split].
    + now apply extract_registered.
    + now apply extract_registered.
    + intros Hround. cbn. now rewrite Hround.
  - intros Hreg. split; now apply extract_unregistered.
  - unfold extractToolCalls. destruct (negb _); [discriminate|].
    destruct (fst _); discriminate.
  - unfold extractToolCalls.
    destruct (truthy (content message)) eqn:Htruthy; cbn [negb].
    + rewrite <- fold_left_app.
      destruct (fst (fold_left _ _ _)) eqn:E.
      * apply fold_collect_nil in E. split; [intros _; apply E|reflexivity].
      * split; [discriminate|]. intros Hall. exfalso.
        assert (Hnil : fst (fold_left (collect rt registry)
                   (functionCallMatches (orEmpty (content message))
                    ++ codeBlockMatches (orEmpty (content message)))%list
                   ([], 0)) = []).
        { apply fold_collect_nil. split; [reflexivity|exact Hall]. }
        congruence.
    + split; [|reflexivity]. intros _ m Hin.
      apply truthy_false in Htruthy.
      assert (Hempty : orEmpty (content message) = "").
      { destruct Htruthy as [-> | ->]; reflexivity. }
      rewrite Hempty in Hin. contradiction Hin.
Qed.

End ExtractFacts.

(** ** The event generator of the client *)

Section StreamFacts.
Import CodexClient Samples.

Lemma onEvent_not_terminal (tid : option string) (total : option Usage)
  (event : ThreadEvent) :
  isSdkError event = false ->
  forallb (fun e => negb (isTerminal e)) (fst (onEvent tid total event)) = true.
Proof.
  destruct event as [[item|]|[u|]|e|t]; cbn [isSdkError onEvent];
    try discriminate; intros _; try reflexivity.
  destruct (_ && _); [reflexivity|].
  destruct (item_content item) as [c|]; [|reflexivity].
  destruct (_ && _); [|reflexivity].
  destruct (nonEmpty _); reflexivity.
Qed.

Lemma forEvents_not_terminal (tid : option string) (evs : list ThreadEvent)
  (total : option Usage) :
  existsb isSdkError evs = false ->
  forallb (fun e => negb (isTerminal e)) (fst (forEvents tid total evs)) = true.
Proof.
  revert total. induction evs as [|event rest IH]; intros total;
    cbn [existsb forEvents]; [reflexivity|].
  intros H. apply orb_false_iff in H. destruct H as [Hev Hrest].
  pose proof (onEvent_not_terminal tid total event Hev) as Hout.
  destruct (onEvent tid total event) as [out total'].
  specialize (IH total' Hrest).
  destruct (forEvents tid total' rest) as [outs final].
  cbn [fst] in *. rewrite forallb_app. now rewrite Hout, IH.
Qed.

(** When the SDK stream carries no error event, the generator ends on
    exactly one terminal event: [complete], or the [error] of a caught
    exception. *)
Lemma runCompletionStreaming_endsOnce (codex : Codex) (prompt : string)
  (options : Options) :
  existsb isSdkError
    (events (runStreamed (openThread codex options)
                         (finalPrompt prompt options))) = false ->
  endsOnce (runCompletionStreaming codex prompt options).
Proof.
  intros H. unfold runCompletionStreaming, endsOnce.
  pose proof (forEvents_not_terminal (idOf (openThread codex options))
                _ None H) as Hout.
  destruct (forEvents _ None _) as [out total]. cbn [fst] in Hout.
  destruct (fault _); eexists out, _; repeat split; assumption || reflexivity.
Qed.

(** C2 fails on the code. An [error] event of the SDK is passed on as an
    [error] event and the loop goes on: for a backend stream that
    reports one error and ends, the generator yields [error] followed by
    [complete], so the stream does not end on its first terminal
    event. *)
Theorem runCompletionStreaming_error_then_complete :
  let out := runCompletionStreaming failingCodex "hi" (mkOptions None None) in
  map type out = [Error; Complete]
  /\ ~ endsOnce out.
Proof.
  cbv zeta. split; [reflexivity|].
  intros (before & last & Heq & _ & Hbefore).
  destruct before as [|b [|b' before]].
  - discriminate Heq.
  - injection Heq as <- _. discriminate Hbefore.
  - vm_compute in Heq. injection Heq as _ _ Heq.
    now destruct before.
Qed.

End StreamFacts.

(** ** The streaming branch of the handler *)

Section HandlerFacts.
Import SessionManager Server Samples.

Ltac step_M :=
  unfold bind, ret, getSessions, setSessions, getTTL, newDate, seconds;
  cbn [fst snd manager sessions defaultTTL clock reads].

Lemma setThreadId_history (sid tid other : string) (w : World) :
  historyOf other (snd (setThreadId sid tid w)) = historyOf other w.
Proof.
  unfold historyOf, setThreadId. step_M.
  destruct (JsMap.get sid (sessions (manager w))) as [s|] eqn:Hget;
    step_M; [|reflexivity].
  destruct (string_dec other sid) as [->|Hne].
  - now rewrite get_set_same, Hget.
  - now rewrite get_set_other.
Qed.

Lemma bind_run {A B} (c : M A) (k : A -> M B) (w : World) :
  bind c k w = k (fst (c w)) (snd (c w)).
Proof. unfold bind. now destruct (c w). Qed.

Lemma seconds_history (other : string) (w : World) :
  historyOf other (snd (seconds w)) = historyOf other w.
Proof. reflexivity. Qed.

(** The loop of the streaming branch leaves the history of every
    session as it found it: no event makes it store a message. *)
Lemma forStream_keeps_histories (requestId mdl : string)
  (actualSessionId : option string) (evs : list CodexClient.StreamEvent)
  (other : string) (w : World) :
  historyOf other (snd (forStream requestId mdl actualSessionId evs w))
  = historyOf other w.
Proof.
  revert w. induction evs as [|event rest IH]; intros w; cbn [forStream].
  - reflexivity.
  - destruct (CodexClient.type event).
    + destruct (truthy (CodexClient.content event)); [|apply IH].
      rewrite !bind_run. cbn [ret snd]. rewrite IH.
      apply seconds_history.
    + apply IH.
    + rewrite !bind_run. cbn [ret snd]. rewrite IH.
      destruct (_ && _).
      * now rewrite setThreadId_history, seconds_history.
      * apply seconds_history.
    + reflexivity.
Qed.

(** C1 fails on the code. A streamed request on session [s1], answered
    by the backend with the text [Hello] on thread [t1], leaves the
    session with the thread id stored and with the user message as its
    whole history: the assistant text is not stored. The same request
    without streaming stores it. *)
Theorem streaming_drops_assistant_text :
  let streamed := snd (handle true) in
  let single := snd (handle false) in
  fst (getThreadId "s1" streamed) = Some "t1"
  /\ historyOf "s1" streamed = Some [msg "user" "hi"]
  /\ historyOf "s1" single = Some [msg "user" "hi"; msg "assistant" "Hello"].
Proof.
  cbv zeta. repeat split; vm_compute; reflexivity.
Qed.

End HandlerFacts.

(** ** The properties at concrete inputs *)

Section Witnesses.
Import SessionManager Samples.

(** Session round trip: message [A], then [B] sent along with a system
    message, read back as [A, B]. *)
Lemma processMessages_accumulates_witness :
  "s1" <> ""
  /\ fst (processMessages [msg "system" "S"; msg "user" "B"] (Some "s1")
            oneTurnWorld)
     = ([msg "user" "A"; msg "user" "B"], Some "s1").
Proof.
  assert (H : "s1" <> "") by discriminate.
  split; [exact H|].
  exact (proj1 (processMessages_accumulates oneTurnWorld
                  [msg "system" "S"; msg "user" "B"] "s1" H)).
Defined.

Lemma setThreadId_last_write_wins_witness :
  let w1 := snd (setThreadId "s1" "t1" oneTurnWorld) in
  let w2 := snd (setThreadId "s1" "t1" w1) in
  let w3 := snd (setThreadId "s1" "t2" w2) in
  fst (getThreadId "s1" w2) = Some "t1"
  /\ fst (getThreadId "s1" w3) = Some "t2".
Proof.
  pose proof (setThreadId_last_write_wins oneTurnWorld "s1" "t1" "t2"
                _ eq_refl) as H.
  cbv zeta in *. destruct H as (_ & _ & H2 & _ & H3).
  split; [exact H2|exact H3].
Defined.

Lemma setThreadId_unknown_noop_witness :
  setThreadId "s2" "t1" oneTurnWorld = (tt, oneTurnWorld).
Proof.
  apply setThreadId_unknown_noop. reflexivity.
Defined.

Lemma cleanup_expiry_witness :
  let w' := snd (cleanup sweepWorld) in
  JsMap.get "old" (sessions (manager w')) = None
  /\ JsMap.get "new" (sessions (manager w'))
     = JsMap.get "new" (sessions (manager sweepWorld))
  /\ map session_id (fst (listSessions (fun _ => "") w')) = ["new"].
Proof.
  cbv zeta.
  pose proof (cleanup_expiry (fun _ => "") sweepWorld "old" _
                eq_refl eq_refl) as Hold.
  pose proof (cleanup_expiry (fun _ => "") sweepWorld "new" _
                eq_refl eq_refl) as Hnew.
  cbv zeta in Hold, Hnew.
  destruct Hold as [Hold _]. destruct Hnew as (_ & _ & Hnew).
  split; [|split].
  - apply Hold. vm_compute. reflexivity.
  - apply Hnew; [vm_compute; discriminate | reflexivity].
  - reflexivity.
Defined.

Lemma extractToolCalls_spec_witness :
  ToolHandler.extractToolCalls flatRuntime Tools.toolRegistry
    (assistant quotedCallText)
  = Some [mkToolCall "call_k3x9q2m7p" "function"
            (mkFunctionCall "read_file" argsText)]
  /\ ToolHandler.extractToolCalls flatRuntime JsMap.empty
       (assistant quotedCallText) = None.
Proof.
  split.
  - assert (Hreg : Tools.get "read_file" Tools.toolRegistry <> None)
      by (vm_compute; discriminate).
    assert (Hparse : ToolHandler.JSON_parse flatRuntime argsText
                     = Some [("path", "a.txt")])
      by (vm_compute; reflexivity).
    exact (proj1 (proj2 (proj1 (extractToolCalls_spec flatRuntime
                                  Tools.toolRegistry (assistant "")
                                  [("path", "a.txt")])
                           Hreg Hparse))).
  - exact (proj2 (proj1 (proj2 (extractToolCalls_spec flatRuntime
                                  JsMap.empty (assistant "") []))
                    eq_refl)).
Defined.

End Witnesses.

(* ================================================================== *)
(** * Further properties of the code *)

(** ** Message adapter *)

Section AdapterFacts.
Import MessageAdapter.

(** [estimateTokens] is the ceiling of a quarter of the length; the
    estimate of a concatenation never exceeds the sum of the estimates
    of its parts. *)
Theorem estimateTokens_ceiling (a b : string) :
  (String.length a <= 4 * estimateTokens a < String.length a + 4)%nat
  /\ (estimateTokens (a ++ b) <= estimateTokens a + estimateTokens b)%nat
  /\ (estimateTokens a <= estimateTokens (a ++ b))%nat.
Proof.
  unfold estimateTokens.
  assert (Hlen : String.length (a ++ b) = (String.length a + String.length b)%nat).
  { induction a as [|c a IH]; cbn; [reflexivity|now rewrite IH]. }
  rewrite Hlen.
  pose proof (Nat.div_mod_eq (String.length a + 3) 4) as Ha.
  pose proof (Nat.mod_upper_bound (String.length a + 3) 4 ltac:(lia)) as Ha'.
  pose proof (Nat.div_mod_eq (String.length b + 3) 4) as Hb.
  pose proof (Nat.mod_upper_bound (String.length b + 3) 4 ltac:(lia)) as Hb'.
  pose proof (Nat.div_mod_eq (String.length a + String.length b + 3) 4) as Hab.
  pose proof (Nat.mod_upper_bound (String.length a + String.length b + 3) 4
                ltac:(lia)) as Hab'.
  lia.
Qed.

Lemma nth_error_last {A} (l : list A) (x : A) :
  nth_error (l ++ [x]) (List.length l) = Some x.
Proof.
  rewrite nth_error_app2 by lia. now rewrite Nat.sub_diag.
Qed.

(** [splitMessages] takes the last message off: putting it back after
    the history gives the input again; only the empty list has no
    current message. *)
Theorem splitMessages_roundtrip (messages : list Message) :
  match splitMessages messages with
  | (history, Some current) => messages = (history ++ [current])%list
  | (history, None) => messages = [] /\ history = []
  end.
Proof.
  unfold splitMessages.
  induction messages as [|x l _] using rev_ind; [now split|].
  rewrite length_app. cbn [List.length].
  replace (List.length l + 1 =? 0)%nat with false
    by (symmetry; apply Nat.eqb_neq; lia).
  replace (List.length l + 1 - 1)%nat with (List.length l) by lia.
  rewrite nth_error_last, firstn_app, Nat.sub_diag, firstn_all.
  cbn. now rewrite app_nil_r.
Qed.

Lemma scanBack_app (n : nat) (l : list Message) (x : Message) :
  (n <= List.length l)%nat -> scanBack n (l ++ [x]) = scanBack n l.
Proof.
  induction n as [|i IH]; intros Hn; cbn [scanBack]; [reflexivity|].
  rewrite nth_error_app1 by lia.
  rewrite IH by lia. reflexivity.
Qed.

Lemma getLastUserMessage_snoc (l : list Message) (x : Message) :
  getLastUserMessage (l ++ [x])
  = if isUserWithContent x then content x else getLastUserMessage l.
Proof.
  unfold getLastUserMessage. rewrite length_app. cbn [List.length].
  rewrite Nat.add_1_r. cbn [scanBack]. rewrite nth_error_last.
  now rewrite scanBack_app by lia.
Qed.

(** [getLastUserMessage] returns the content of the last user message
    that has content, and nothing exactly when there is no such
    message. *)
Theorem getLastUserMessage_last (messages : list Message) :
  match getLastUserMessage messages with
  | None => forall m, In m messages -> isUserWithContent m = false
  | Some c =>
      exists before m after,
        messages = (before ++ m :: after)%list
        /\ role m = Some "user" /\ content m = Some c /\ c <> ""
        /\ forall m', In m' after -> isUserWithContent m' = false
  end.
Proof.
  induction messages as [|x l IH] using rev_ind.
  - cbn. intros m [].
  - rewrite getLastUserMessage_snoc.
    destruct (isUserWithContent x) eqn:Ex.
    + unfold isUserWithContent in Ex. apply andb_true_iff in Ex.
      destruct Ex as [Hr Hc]. apply isLit_true_iff in Hr.
      destruct (content x) as [c|] eqn:Hcx; [|discriminate].
      exists l, x, []. repeat split; auto.
      * intros ->. discriminate.
      * intros m' [].
    + destruct (getLastUserMessage l) as [c|].
      * destruct IH as (before & m & after & -> & Hr & Hc & Hne & Hafter).
        exists before, m, (after ++ [x])%list.
        rewrite <- app_assoc. repeat split; auto.
        intros m' Hin. apply in_app_or in Hin.
        destruct Hin as [Hin|[<-|[]]]; auto.
      * intros m Hin. apply in_app_or in Hin.
        destruct Hin as [Hin|[<-|[]]]; auto.
Qed.

(** *** The transcript *)

Lemma promptStep_lines (acc : Acc) (m : Message) :
  conversationMessages (promptStep acc m)
  = (conversationMessages acc ++ linesOf m)%list.
Proof.
  unfold linesOf, promptStep, push.
  destruct (isLit (role m) "system").
  - destruct (truthy (content m)); cbn; now rewrite app_nil_r.
  - destruct (isLit (role m) "user"); [reflexivity|].
    destruct (isLit (role m) "assistant").
    + cbn [conversationMessages app].
      destruct (truthy (content m)), (tool_calls m) as [[|tc tcs]|];
        cbn [app]; rewrite ?app_nil_r, <- ?app_assoc; reflexivity.
    + destruct (isLit (role m) "tool"); [reflexivity|].
      cbn. now rewrite app_nil_r.
Qed.

Lemma fold_lines (ms : list Message) (acc : Acc) :
  conversationMessages (fold_left promptStep ms acc)
  = (conversationMessages acc ++ flat_map linesOf ms)%list.
Proof.
  revert acc. induction ms as [|m ms IH]; intros acc; cbn [fold_left flat_map].
  - now rewrite app_nil_r.
  - now rewrite IH, promptStep_lines, <- app_assoc.
Qed.

Lemma prompt_eq (ms : list Message) :
  fst (messagesToPrompt ms) = join nl2 (flat_map linesOf ms).
Proof.
  unfold messagesToPrompt. cbn [fst]. now rewrite fold_lines.
Qed.

Lemma linesOf_system (m : Message) : isSystem m = true -> linesOf m = [].
Proof.
  unfold isSystem, linesOf, promptStep. intros ->.
  now destruct (truthy (content m)).
Qed.

(** System messages never reach the prompt: removing them from the
    list leaves the prompt as it is, and a list of system messages only
    has the empty prompt. *)
Theorem prompt_ignores_system (messages : list Message) :
  fst (messagesToPrompt messages)
  = fst (messagesToPrompt (filter (fun m => negb (isSystem m)) messages))
  /\ (forallb isSystem messages = true ->
      fst (messagesToPrompt messages) = "").
Proof.
  rewrite !prompt_eq. split.
  - f_equal. induction messages as [|m ms IH]; [reflexivity|].
    cbn [flat_map filter]. destruct (isSystem m) eqn:E; cbn [negb].
    + now rewrite linesOf_system.
    + cbn [flat_map]. now rewrite IH.
  - intros Hall. replace (flat_map linesOf messages) with (@nil string);
      [reflexivity|].
    induction messages as [|m ms IH]; [reflexivity|].
    cbn [forallb] in Hall. apply andb_true_iff in Hall.
    destruct Hall as [Hm Hms]. cbn [flat_map].
    now rewrite linesOf_system, <- IH.
Qed.

Lemma append_nonempty_l (a b : string) : a <> "" -> (a ++ b) <> "".
Proof. destruct a; [congruence|discriminate]. Qed.

Lemma append_nonempty_r (a b : string) : b <> "" -> (a ++ b) <> "".
Proof. destruct a; [now cbn|discriminate]. Qed.

Lemma join_nonempty (sep : string) (xs : list string) (x : string) :
  In x xs -> x <> "" -> join sep xs <> "".
Proof.
  unfold join. induction xs as [|y ys IH]; [intros []|].
  intros Hin Hx. cbn [String.concat]. destruct ys as [|z zs].
  - destruct Hin as [->|[]]. exact Hx.
  - destruct Hin as [->|Hin].
    + now apply append_nonempty_l.
    + apply append_nonempty_r, append_nonempty_r. now apply IH.
Qed.

(** A list with a user message always has a prompt: the handler's
    answer [No valid prompt in messages] cannot occur for it. *)
Theorem prompt_nonempty_with_user (messages : list Message) (m : Message) :
  In m messages -> role m = Some "user" ->
  nonEmpty (fst (messagesToPrompt messages)) = true.
Proof.
  intros Hin Hrole. apply nonEmpty_true. rewrite prompt_eq.
  assert (Hline : exists line, In line (linesOf m) /\ line <> "").
  { unfold linesOf, promptStep. rewrite Hrole. cbn [isLit].
    eexists. split; [now left|]. discriminate. }
  destruct Hline as (line & Hl & Hne).
  apply join_nonempty with line; [|exact Hne].
  apply in_flat_map. now exists m.
Qed.

End AdapterFacts.

(** ** Session manager: single calls *)

Section ManagerCalls.
Import SessionManager.

Ltac step_M :=
  unfold bind, ret, getSessions, setSessions, getTTL, newDate;
  cbn [fst snd manager sessions defaultTTL clock reads].

(** [deleteSession] answers whether the session was there; afterwards
    it is gone, every other session is as before, and deleting it again
    answers [false]. *)
Theorem deleteSession_removes (w : World) (sid : string) :
  let r := deleteSession sid w in
  (fst r = true <-> JsMap.get sid (sessions (manager w)) <> None)
  /\ fst (getSession sid (snd r)) = None
  /\ (forall other, other <> sid ->
        fst (getSession other (snd r)) = fst (getSession other w))
  /\ fst (deleteSession sid (snd r)) = false.
Proof.
  cbv zeta. unfold deleteSession, getSession. step_M.
  repeat split.
  - unfold JsMap.has.
    destruct (JsMap.get sid (sessions (manager w))); congruence.
  - unfold JsMap.has.
    destruct (JsMap.get sid (sessions (manager w))); congruence.
  - rewrite get_delete. now rewrite String.eqb_refl.
  - intros other Hne. rewrite get_delete.
    destruct (sid =? other) eqn:E; [|reflexivity].
    apply String.eqb_eq in E. congruence.
  - unfold JsMap.has. rewrite get_delete. now rewrite String.eqb_refl.
Qed.

(** [addAssistantResponse] on a stored session puts the message at the
    end of its history, counts it, sets [lastActive] to the clock value
    it reads and keeps thread id and creation date; other sessions are
    as before. On an id that is not stored it changes nothing and does
    not even read the clock. *)
Theorem addAssistantResponse_appends
  (w : World) (sid : string) (message : Message) :
  let w' := snd (addAssistantResponse sid message w) in
  match JsMap.get sid (sessions (manager w)) with
  | Some s =>
      JsMap.get sid (sessions (manager w'))
      = Some (mkSession (sessionId s) (threadId s)
                (messages s ++ [message])%list (createdAt s)
                (clock w (reads w)) (S (messageCount s)))
      /\ reads w' = S (reads w)
      /\ forall other, other <> sid ->
           JsMap.get other (sessions (manager w'))
           = JsMap.get other (sessions (manager w))
  | None => w' = w
  end.
Proof.
  cbv zeta. unfold addAssistantResponse. step_M.
  destruct (JsMap.get sid (sessions (manager w))) as [s|] eqn:Hget; step_M.
  - rewrite get_set_same. repeat split.
    intros other Hne. now rewrite get_set_other.
  - reflexivity.
Qed.

Lemma processMessages_run (w : World) (msgs : list Message) (sid : string) :
  sid <> "" ->
  let store := sessions (manager w) in
  let s0 := match JsMap.get sid store with
            | Some s => s
            | None => mkSession sid "" [] (clock w (reads w))
                        (clock w (S (reads w))) 0
            end in
  let k := match JsMap.get sid store with
           | Some _ => reads w
           | None => S (S (reads w))
           end in
  let s1 := fold_left storeStep msgs (withLastActive s0 (clock w k)) in
  processMessages msgs (Some sid) w
  = ((messages s1, Some sid),
     mkWorld (clock w) (S k)
       (mkManager (JsMap.set sid s1 store) (defaultTTL (manager w)))).
Proof.
  intros Hsid. cbv zeta. unfold processMessages.
  cbn [truthy orEmpty]. rewrite (nonEmpty_true sid Hsid). cbn [negb].
  step_M.
  destruct (JsMap.get sid (sessions (manager w))) as [s|] eqn:Hget; step_M.
  - reflexivity.
  - step_M. now rewrite set_set.
Qed.

Lemma keys_set {V} (m : JsMap.t V) (k : string) (v : V) :
  JsMap.keys (JsMap.set k v m)
  = if JsMap.has k m then JsMap.keys m else (JsMap.keys m ++ [k])%list.
Proof.
  unfold JsMap.keys, JsMap.has.
  induction m as [|[k' v'] m IH]; cbn [JsMap.set JsMap.get map fst app].
  - reflexivity.
  - destruct (k' =? k) eqn:E; cbn [map fst].
    + apply String.eqb_eq in E. now subst.
    + rewrite IH. now destruct (JsMap.get k m).
Qed.

(** The listing keeps its order: a request on a stored session leaves
    the listed ids as they were, and a request that creates a session
    lists it last. *)
Theorem listSessions_order (toISOString : Z -> string)
  (w : World) (msgs : list Message) (sid : string) :
  sid <> "" ->
  let ids := map session_id (fst (listSessions toISOString w)) in
  let w' := snd (processMessages msgs (Some sid) w) in
  map session_id (fst (listSessions toISOString w'))
  = match JsMap.get sid (sessions (manager w)) with
    | Some _ => ids
    | None => (ids ++ [sid])%list
    end.
Proof.
  intros Hsid. cbv zeta.
  rewrite !listSessions_ids, (processMessages_run w msgs sid Hsid).
  cbn [snd manager sessions]. rewrite keys_set. unfold JsMap.has.
  now destruct (JsMap.get sid (sessions (manager w))).
Qed.

(** Two requests on a session, one after the other, return the history
    that one request carrying both message lists returns. *)
Theorem processMessages_compose
  (w : World) (a b : list Message) (sid : string) :
  sid <> "" ->
  fst (fst (processMessages b (Some sid)
              (snd (processMessages a (Some sid) w))))
  = fst (fst (processMessages (a ++ b) (Some sid) w)).
Proof.
  intros Hsid.
  rewrite (processMessages_run w a sid Hsid).
  rewrite (processMessages_run w (a ++ b) sid Hsid).
  cbn [snd fst].
  rewrite (processMessages_run _ b sid Hsid).
  cbn [fst manager sessions clock reads].
  rewrite get_set_same, !fold_storeStep.
  cbn [messages withLastActive sessionId threadId createdAt lastActive
       messageCount].
  now rewrite filter_app, app_assoc.
Qed.

(** In session mode the list handed to [messagesToPrompt] is the stored
    history, which holds no system message: the system prompt computed
    from it is absent whatever system messages the request carries. *)
Theorem session_mode_has_no_system_prompt
  (w : World) (msgs : list Message) (sid : string) :
  sid <> "" ->
  systemFree (sessions (manager w)) ->
  snd (MessageAdapter.messagesToPrompt
         (fst (fst (processMessages msgs (Some sid) w)))) = None.
Proof.
  intros Hsid Hfree.
  rewrite (processMessages_run w msgs sid Hsid). cbn [fst].
  rewrite fold_storeStep. cbn [messages withLastActive].
  rewrite systemPrompt_eq.
  replace (MessageAdapter.systemContents _) with (@nil string);
    [reflexivity|].
  symmetry. unfold MessageAdapter.systemContents.
  match goal with
  | |- map _ (filter ?p ?l) = [] =>
      replace (filter p l) with (@nil Message); [reflexivity|]
  end.
  symmetry. rewrite filter_app.
  assert (Hnone : forall l, forallb nonSystem l = true ->
            filter (fun m => MessageAdapter.isSystem m && truthy (content m)) l
            = []).
  { induction l as [|m l IH]; [reflexivity|]. cbn [forallb filter].
    intros H. apply andb_true_iff in H. destruct H as [Hm Hl].
    unfold nonSystem in Hm. apply negb_true_iff in Hm.
    unfold MessageAdapter.isSystem. rewrite Hm. cbn [andb]. now apply IH. }
  rewrite !Hnone; [reflexivity| |].
  - clear. induction msgs as [|m l IH]; [reflexivity|]. cbn [filter].
    destruct (negb (isLit (role m) "system")) eqn:E; [|exact IH].
    cbn [forallb]. unfold nonSystem at 1. now rewrite E.
  - destruct (JsMap.get sid (sessions (manager w))) as [s|] eqn:Hget.
    + now apply (Hfree sid).
    + reflexivity.
Qed.

End ManagerCalls.

(** ** Session manager: runs *)

Section ManagerRuns.
Import SessionManager.

Ltac step_M :=
  unfold bind, ret, getSessions, setSessions, getTTL, newDate;
  cbn [fst snd manager sessions defaultTTL clock reads].

(** An induction principle for properties of the store that every call
    keeps. *)
Lemma run_invariant (P : JsMap.t Session -> Prop)
  (clk : nat -> Z) (ttl : option Z) (calls : list Call) :
  P JsMap.empty ->
  (forall c w, In c calls -> P (sessions (manager w)) ->
               P (sessions (manager (exec c w)))) ->
  P (sessions (manager (run clk ttl calls))).
Proof.
  unfold run. intros H0 Hstep.
  assert (Hw : P (sessions (manager (start clk ttl)))) by exact H0.
  revert Hw. generalize (start clk ttl).
  induction calls as [|c calls IH]; intros w Hw; cbn [fold_left].
  - exact Hw.
  - apply IH.
    + intros c' w' Hin. apply Hstep. now right.
    + apply Hstep; [now left|exact Hw].
Qed.

Lemma fold_storeStep_fields (msgs : list Message) (s : Session) :
  sessionId (fold_left storeStep msgs s) = sessionId s
  /\ messages (fold_left storeStep msgs s)
     = (messages s
        ++ filter (fun m => negb (isLit (role m) "system")) msgs)%list.
Proof. rewrite fold_storeStep. now cbn. Qed.

(** In every state a manager reaches, each session is stored under its
    own [sessionId]. *)
Theorem sessions_keyed_by_id
  (clk : nat -> Z) (ttl : option Z) (calls : list Call) :
  keyedById (sessions (manager (run clk ttl calls))).
Proof.
  apply run_invariant; [intros sid s; discriminate|].
  intros c w _ Hinv.
  destruct c as [msgs sid|sid m|sid tid|sid| |]; cbn [exec].
  - destruct (truthy sid) eqn:Ht.
    + assert (Hsid : orEmpty sid <> "").
      { destruct sid as [x|]; [|discriminate]. cbn in *.
        rewrite Ht. intros ->. discriminate. }
      rewrite (orEmpty_truthy sid Ht).
      rewrite (processMessages_run w msgs _ Hsid). cbn [snd manager sessions].
      intros k s Hget. apply get_set_inv in Hget.
      destruct Hget as [[-> ->]|[_ Hget]]; [|now apply Hinv].
      destruct (fold_storeStep_fields msgs
                  (withLastActive
                     match JsMap.get (orEmpty sid) (sessions (manager w)) with
                     | Some s => s
                     | None => mkSession (orEmpty sid) "" []
                                 (clock w (reads w)) (clock w (S (reads w))) 0
                     end
                     (clock w match JsMap.get (orEmpty sid) (sessions (manager w)) with
                              | Some _ => reads w
                              | None => S (S (reads w))
                              end))) as [-> _].
      cbn [withLastActive sessionId].
      destruct (JsMap.get (orEmpty sid) (sessions (manager w))) eqn:E;
        [now apply Hinv|reflexivity].
    + rewrite processMessages_stateless by exact Ht. exact Hinv.
  - unfold addAssistantResponse. step_M.
    destruct (JsMap.get sid (sessions (manager w))) as [s|] eqn:Hget;
      step_M; [|exact Hinv].
    intros k s' Hk. apply get_set_inv in Hk.
    destruct Hk as [[-> ->]|[_ Hk]]; [|now apply Hinv].
    cbn. now apply Hinv.
  - unfold setThreadId. step_M.
    destruct (JsMap.get sid (sessions (manager w))) as [s|] eqn:Hget;
      step_M; [|exact Hinv].
    intros k s' Hk. apply get_set_inv in Hk.
    destruct Hk as [[-> ->]|[_ Hk]]; [|now apply Hinv].
    cbn. now apply Hinv.
  - unfold deleteSession. step_M. intros k s. rewrite get_delete.
    destruct (sid =? k); [discriminate|]. apply Hinv.
  - rewrite cleanup_sessions. intros k s. rewrite sweep_get.
    destruct (existsb _ _); [discriminate|]. apply Hinv.
  - intros k s. discriminate.
Qed.

Lemma forallb_nonSystem_kept (msgs : list Message) :
  forallb nonSystem (filter (fun m => negb (isLit (role m) "system")) msgs)
  = true.
Proof.
  induction msgs as [|m l IH]; [reflexivity|]. cbn [filter].
  destruct (negb (isLit (role m) "system")) eqn:E; [|exact IH].
  cbn [forallb]. unfold nonSystem at 1. now rewrite E.
Qed.

(** As long as no system message is handed to [addAssistantResponse],
    no stored history ever holds a system message. *)
Theorem histories_hold_no_system
  (clk : nat -> Z) (ttl : option Z) (calls : list Call) :
  forallb addsNoSystem calls = true ->
  systemFree (sessions (manager (run clk ttl calls))).
Proof.
  intros Hcalls.
  apply run_invariant; [intros sid s; discriminate|].
  intros c w Hin Hinv.
  assert (Hc : addsNoSystem c = true).
  { rewrite forallb_forall in Hcalls. now apply Hcalls. }
  destruct c as [msgs sid|sid m|sid tid|sid| |]; cbn [exec].
  - destruct (truthy sid) eqn:Ht.
    + assert (Hsid : orEmpty sid <> "").
      { destruct sid as [x|]; [|discriminate]. cbn in *.
        rewrite Ht. intros ->. discriminate. }
      rewrite (orEmpty_truthy sid Ht).
      rewrite (processMessages_run w msgs _ Hsid). cbn [snd manager sessions].
      intros k s Hget. apply get_set_inv in Hget.
      destruct Hget as [[-> ->]|[_ Hget]]; [|now apply (Hinv k)].
      rewrite fold_storeStep. cbn [messages withLastActive].
      rewrite forallb_app, forallb_nonSystem_kept, andb_true_r.
      destruct (JsMap.get (orEmpty sid) (sessions (manager w))) eqn:E;
        [now apply (Hinv (orEmpty sid))|reflexivity].
    + rewrite processMessages_stateless by exact Ht. exact Hinv.
  - unfold addAssistantResponse. step_M.
    destruct (JsMap.get sid (sessions (manager w))) as [s|] eqn:Hget;
      step_M; [|exact Hinv].
    intros k s' Hk. apply get_set_inv in Hk.
    destruct Hk as [[-> ->]|[_ Hk]]; [|now apply (Hinv k)].
    cbn [messages withLastActive pushMessage].
    rewrite forallb_app. cbn [forallb]. cbn [addsNoSystem] in Hc.
    now rewrite (Hinv sid s Hget), Hc.
  - unfold setThreadId. step_M.
    destruct (JsMap.get sid (sessions (manager w))) as [s|] eqn:Hget;
      step_M; [|exact Hinv].
    intros k s' Hk. apply get_set_inv in Hk.
    destruct Hk as [[-> ->]|[_ Hk]]; [|now apply (Hinv k)].
    cbn. now apply (Hinv sid).
  - unfold deleteSession. step_M. intros k s. rewrite get_delete.
    destruct (sid =? k); [discriminate|]. apply Hinv.
  - rewrite cleanup_sessions. intros k s. rewrite sweep_get.
    destruct (existsb _ _); [discriminate|]. apply Hinv.
  - intros k s. discriminate.
Qed.

(** *** The sweep as a filter *)

Lemma delete_filter {V} (k : string) (p : string * V -> bool)
  (m : JsMap.t V) :
  JsMap.delete k (filter p m)
  = filter (fun e => p e && negb (fst e =? k)) m.
Proof.
  unfold JsMap.delete. induction m as [|e m IH]; [reflexivity|].
  cbn [filter]. destruct (p e); cbn [filter andb].
  - destruct (negb (fst e =? k)); now rewrite IH.
  - exact IH.
Qed.

Lemma sweepStep_filter (now ttl : Z) (entry : string * Session)
  (p : string * Session -> bool) (m : JsMap.t Session) :
  sweepStep now ttl (filter p m) entry
  = filter (fun e => p e && negb (expiredKey now ttl (fst e) entry)) m.
Proof.
  unfold sweepStep, expiredKey.
  destruct (now >? lastActive (snd entry) + ttl)%Z.
  - rewrite delete_filter. apply filter_ext. intros e.
    now rewrite andb_true_r, String.eqb_sym.
  - apply filter_ext. intros e. now rewrite andb_false_r, andb_true_r.
Qed.

Lemma sweep_filter (now ttl : Z) (l : list (string * Session))
  (p : string * Session -> bool) (m : JsMap.t Session) :
  fold_left (sweepStep now ttl) l (filter p m)
  = filter (fun e => p e
                     && negb (existsb (expiredKey now ttl (fst e)) l)) m.
Proof.
  revert p. induction l as [|entry l IH]; intros p; cbn [fold_left existsb].
  - apply filter_ext. intros e. now rewrite andb_true_r.
  - rewrite sweepStep_filter, IH. apply filter_ext. intros e.
    now rewrite negb_orb, andb_assoc.
Qed.

Lemma wf_same_key {V} (m : JsMap.t V) (e e' : string * V) :
  JsMap.wf m = true -> In e m -> In e' m -> fst e = fst e' -> e = e'.
Proof.
  intros Hwf Hin Hin' Hk. destruct e as [k v], e' as [k' v'].
  cbn in Hk. subst k'.
  pose proof (wf_In_get _ _ _ Hwf Hin) as H1.
  pose proof (wf_In_get _ _ _ Hwf Hin') as H2. congruence.
Qed.

(** In every state a manager reaches, a sweep keeps exactly the
    sessions that are not past their expiry, in the order they had. *)
Theorem cleanup_is_filter
  (clk : nat -> Z) (ttl : option Z) (calls : list Call) :
  let w := run clk ttl calls in
  sessions (manager (snd (cleanup w)))
  = filter (alive (clock w (reads w)) (defaultTTL (manager w)))
           (sessions (manager w)).
Proof.
  cbv zeta. pose proof (run_wf clk ttl calls) as Hwf.
  rewrite cleanup_sessions.
  set (store := sessions (manager (run clk ttl calls))) in *.
  set (now := clock _ _). set (t := defaultTTL _).
  replace store with (filter (fun _ => true) store) at 2
    by (clear; induction store as [|e m IH]; cbn; [|rewrite IH]; reflexivity).
  rewrite sweep_filter. apply filter_ext_in. intros e Hin.
  cbn [andb]. unfold alive. f_equal.
  destruct (now >? lastActive (snd e) + t)%Z eqn:E.
  - apply existsb_exists. exists e. split; [exact Hin|].
    unfold expiredKey. now rewrite String.eqb_refl, E.
  - destruct (existsb _ _) eqn:Ex; [|reflexivity].
    apply existsb_exists in Ex. destruct Ex as (e' & Hin' & He').
    unfold expiredKey in He'. apply andb_true_iff in He'.
    destruct He' as [Hk He']. apply String.eqb_eq in Hk.
    rewrite (wf_same_key store e' e Hwf Hin' Hin Hk) in He'. congruence.
Qed.

End ManagerRuns.

(** ** Session manager: statistics *)

Section StatsFacts.
Import SessionManager.
Variable toISOString : Z -> string.

Lemma fold_stats_total (l : list Session) (acc : StatsAcc) :
  total (fold_left statsStep l acc)
  = (total acc + list_sum (map messageCount l))%nat.
Proof.
  revert acc. induction l as [|s l IH]; intros acc; cbn [fold_left].
  - simpl. lia.
  - rewrite IH. simpl. lia.
Qed.

Lemma fold_stats_oldest (l : list Session) (acc : StatsAcc) :
  match oldest (fold_left statsStep l acc) with
  | None => oldest acc = None /\ l = []
  | Some o => earliest (oldest acc) l o
  end.
Proof.
  revert acc. induction l as [|s l IH]; intros acc; cbn [fold_left].
  - destruct (oldest acc) as [o|] eqn:E; [|now split].
    repeat split; [now right|intros ? []|].
    intros h [= <-]. lia.
  - specialize (IH (statsStep acc s)).
    destruct (oldest (fold_left statsStep l (statsStep acc s))) as [o|].
    + destruct IH as (Hin & Hall & Hheld). cbn [statsStep oldest] in Hin, Hheld.
      destruct (oldest acc) as [h|] eqn:Eh.
      * destruct (createdAt s <? createdAt h)%Z eqn:Elt.
        -- apply Z.ltb_lt in Elt. pose proof (Hheld s eq_refl).
           repeat split.
           ++ destruct Hin as [Hin|[= <-]]; left; [now right|now left].
           ++ intros x [<-|Hx]; auto.
           ++ intros h' [= <-]. lia.
        -- apply Z.ltb_ge in Elt. pose proof (Hheld h eq_refl).
           repeat split.
           ++ destruct Hin as [Hin|Hin]; [left; now right|now right].
           ++ intros x [<-|Hx]; [lia|auto].
           ++ intros h' [= <-]. lia.
      * pose proof (Hheld s eq_refl). repeat split.
        -- destruct Hin as [Hin|[= <-]]; left; [now right|now left].
        -- intros x [<-|Hx]; auto.
        -- discriminate.
    + destruct IH as [Hnone _]. cbn [statsStep oldest] in Hnone.
      destruct (oldest acc); [destruct (_ <? _)%Z|]; discriminate.
Qed.

Lemma fold_stats_newest (l : list Session) (acc : StatsAcc) :
  match newest (fold_left statsStep l acc) with
  | None => newest acc = None /\ l = []
  | Some n => latest (newest acc) l n
  end.
Proof.
  revert acc. induction l as [|s l IH]; intros acc; cbn [fold_left].
  - destruct (newest acc) as [o|] eqn:E; [|now split].
    repeat split; [now right|intros ? []|].
    intros h [= <-]. lia.
  - specialize (IH (statsStep acc s)).
    destruct (newest (fold_left statsStep l (statsStep acc s))) as [o|].
    + destruct IH as (Hin & Hall & Hheld). cbn [statsStep newest] in Hin, Hheld.
      destruct (newest acc) as [h|] eqn:Eh.
      * destruct (createdAt s >? createdAt h)%Z eqn:Egt.
        -- apply Z.gtb_lt in Egt. pose proof (Hheld s eq_refl).
           repeat split.
           ++ destruct Hin as [Hin|[= <-]]; left; [now right|now left].
           ++ intros x [<-|Hx]; auto.
           ++ intros h' [= <-]. lia.
        -- assert (createdAt s <= createdAt h)%Z.
           { destruct (Z.gtb_spec (createdAt s) (createdAt h));
               [discriminate|lia]. }
           pose proof (Hheld h eq_refl).
           repeat split.
           ++ destruct Hin as [Hin|Hin]; [left; now right|now right].
           ++ intros x [<-|Hx]; [lia|auto].
           ++ intros h' [= <-]. lia.
      * pose proof (Hheld s eq_refl). repeat split.
        -- destruct Hin as [Hin|[= <-]]; left; [now right|now left].
        -- intros x [<-|Hx]; auto.
        -- discriminate.
    + destruct IH as [Hnone _]. cbn [statsStep newest] in Hnone.
      destruct (newest acc); [destruct (_ >? _)%Z|]; discriminate.
Qed.

(** The dates [getStats] reports are those of a stored session created
    no later, respectively no earlier, than every stored session; with
    an empty store both are [null]. *)
Theorem getStats_extremes (w : World) :
  let all := JsMap.values (sessions (manager w)) in
  let st := fst (getStats toISOString w) in
  exists o n,
    oldestSession st = isoOrNull toISOString o
    /\ newestSession st = isoOrNull toISOString n
    /\ match o with
       | None => all = []
       | Some x => In x all
                   /\ forall s, In s all -> (createdAt x <= createdAt s)%Z
       end
    /\ match n with
       | None => all = []
       | Some x => In x all
                   /\ forall s, In s all -> (createdAt s <= createdAt x)%Z
       end.
Proof.
  cbv zeta. unfold getStats, bind, ret, getSessions. cbn [fst].
  exists (oldest (statsOf (sessions (manager w)))),
         (newest (statsOf (sessions (manager w)))).
  split; [reflexivity|]. split; [reflexivity|]. unfold statsOf. split.
  - pose proof (fold_stats_oldest (JsMap.values (sessions (manager w)))
                  (mkStatsAcc 0 None None)) as H.
    destruct (oldest _) as [x|].
    + destruct H as ([Hin|Hin] & Hall & _); [now split|discriminate].
    + apply H.
  - pose proof (fold_stats_newest (JsMap.values (sessions (manager w)))
                  (mkStatsAcc 0 None None)) as H.
    destruct (newest _) as [x|].
    + destruct H as ([Hin|Hin] & Hall & _); [now split|discriminate].
    + apply H.
Qed.

(** In every state a manager reaches, [getStats] counts as many active
    sessions as [listSessions] lists, and its total is the number of
    messages held in all histories together. *)
Theorem getStats_totals
  (clk : nat -> Z) (ttl : option Z) (calls : list Call) :
  let w := run clk ttl calls in
  let st := fst (getStats toISOString w) in
  activeSessions st = List.length (fst (listSessions toISOString w))
  /\ totalMessages st
     = list_sum (map (fun s => List.length (messages s))
                     (JsMap.values (sessions (manager w)))).
Proof.
  cbv zeta. unfold getStats, listSessions, bind, ret, getSessions, getTTL.
  cbn [fst activeSessions totalMessages]. split.
  - unfold JsMap.size, JsMap.entries. now rewrite length_map.
  - unfold statsOf. rewrite fold_stats_total. cbn [total plus].
    f_equal.
    assert (Hcount : countsMessages (sessions (manager (run clk ttl calls)))).
    { apply run_invariant; [intros k s; discriminate|].
      intros c w _. apply exec_counts. }
    pose proof (run_wf clk ttl calls) as Hwf.
    revert Hcount Hwf. generalize (sessions (manager (run clk ttl calls))).
    intros store Hcount Hwf. unfold JsMap.values.
    rewrite !map_map. apply map_ext_in. intros [k s] Hin. cbn [snd].
    apply (Hcount k). now apply wf_In_get.
Qed.

End StatsFacts.

(** ** Tool registry *)

Section RegistryFacts.
Import Tools.

Lemma registerAll_snoc (tools : list ToolDefinition) (t : ToolDefinition) :
  registerAll (tools ++ [t]) = register t (registerAll tools).
Proof. unfold registerAll. now rewrite fold_left_app. Qed.

(** Looking a name up in a registry returns the tool registered last
    under that name, and nothing when no tool of that name was
    registered; the names of the registry are free of repetitions. *)
Theorem registry_lookup (tools : list ToolDefinition) (n : string) :
  get n (registerAll tools) = find (fun t => name t =? n) (rev tools)
  /\ NoDup (getNames (registerAll tools)).
Proof.
  split.
  - induction tools as [|t tools IH] using rev_ind; [reflexivity|].
    rewrite registerAll_snoc, rev_app_distr. cbn [rev app find].
    unfold register, get in *.
    destruct (name t =? n) eqn:E.
    + apply String.eqb_eq in E. subst n. apply get_set_same.
    + rewrite get_set_other; [exact IH|].
      apply String.eqb_neq in E. congruence.
  - assert (Hwf : JsMap.wf (registerAll tools) = true).
    { induction tools as [|t tools IH] using rev_ind; [reflexivity|].
      rewrite registerAll_snoc. now apply wf_set. }
    revert Hwf. unfold getNames, JsMap.keys.
    generalize (registerAll tools). intros m.
    induction m as [|[k v] m IH]; cbn [JsMap.wf map fst]; [constructor|].
    intros H. apply andb_true_iff in H. destruct H as [Hk Hwf].
    constructor; [|now apply IH].
    intros Hin. apply (has_keys m k) in Hin. now rewrite Hin in Hk.
Qed.

End RegistryFacts.

(** ** Tool handler *)

Section ToolHandlerFacts.
Import ToolHandler.
Context {J : Type}.
Variable rt : Runtime J.
Variable registry : Tools.ToolRegistry.

Lemma nonEmpty_orEmpty (v : option string) :
  truthy v = true -> nonEmpty (orEmpty v) = true.
Proof.
  destruct v as [x|]; [|discriminate]. cbn. intros H. now rewrite H.
Qed.

Lemma collect_validb (st : list ToolCall * nat) (m : string * string) :
  collect rt registry st m
  = if validb rt registry m
    then ((fst st ++ [makeCall rt (snd st) m])%list, S (snd st))
    else st.
Proof.
  destruct st as [calls k], m as [functionName argsStr].
  unfold collect, validb, makeCall. cbn [fst snd].
  destruct (Tools.get functionName registry); [|reflexivity].
  now destruct (JSON_parse rt argsStr).
Qed.

Lemma fold_collect_calls (ms : list (string * string))
  (st : list ToolCall * nat) :
  fold_left (collect rt registry) ms st
  = ((fst st ++ callsFrom rt (snd st) (filter (validb rt registry) ms))%list,
     (snd st + List.length (filter (validb rt registry) ms))%nat).
Proof.
  revert st. induction ms as [|m ms IH]; intros [calls k];
    cbn [fold_left filter fst snd].
  - cbn. now rewrite app_nil_r, Nat.add_0_r.
  - rewrite IH, collect_validb. cbn [fst snd].
    destruct (validb rt registry m); cbn [fst snd callsFrom List.length].
    + rewrite <- app_assoc. cbn [app]. f_equal. lia.
    + reflexivity.
Qed.

Lemma callsFrom_all (k : nat) (ms : list (string * string)) (c : ToolCall) :
  In c (callsFrom rt k ms) ->
  exists j m, In m ms /\ c = makeCall rt j m.
Proof.
  revert k. induction ms as [|m ms IH]; intros k; cbn [callsFrom];
    [intros []|].
  intros [<-|Hin].
  - exists k, m. split; [now left|reflexivity].
  - destruct (IH _ Hin) as (j & m' & Hm & ->).
    exists j, m'. split; [now right|reflexivity].
Qed.

Lemma callsFrom_length (k : nat) (ms : list (string * string)) :
  List.length (callsFrom rt k ms) = List.length ms.
Proof.
  revert k. induction ms as [|m ms IH]; intros k; cbn; [|rewrite IH];
    reflexivity.
Qed.

(** [extractToolCalls] builds one call per match that has a registered
    name and parsable arguments: first those of the inline pattern, then
    those of the fenced pattern, each in the order found, with ids drawn
    in that order. Every call it returns has type [function] and a
    registered name. *)
Theorem extractToolCalls_calls (message : Message) :
  let text := orEmpty (content message) in
  let valid := filter (validb rt registry)
                 (functionCallMatches text ++ codeBlockMatches text)%list in
  extractToolCalls rt registry message
  = match callsFrom rt 0 valid with
    | [] => None
    | calls => Some calls
    end
  /\ forall calls c,
       extractToolCalls rt registry message = Some calls -> In c calls ->
       type c = "function"
       /\ Tools.get (fn_name (function c)) registry <> None
       /\ List.length calls = List.length valid.
Proof.
  cbv zeta.
  assert (Heq : extractToolCalls rt registry message
                = match callsFrom rt 0
                          (filter (validb rt registry)
                             (functionCallMatches (orEmpty (content message))
                              ++ codeBlockMatches (orEmpty (content message)))%list)
                  with
                  | [] => None
                  | calls => Some calls
                  end).
  { unfold extractToolCalls.
    destruct (truthy (content message)) eqn:Ht; cbn [negb].
    - rewrite <- fold_left_app, fold_collect_calls. reflexivity.
    - apply truthy_false in Ht.
      assert (Hempty : orEmpty (content message) = "")
        by (destruct Ht as [-> | ->]; reflexivity).
      now rewrite Hempty. }
  split; [exact Heq|].
  intros calls c Hsome Hin. rewrite Heq in Hsome.
  destruct (callsFrom rt 0 _) as [|c0 cs] eqn:Ecalls; [discriminate|].
  injection Hsome as <-. rewrite <- Ecalls in *.
  destruct (callsFrom_all _ _ _ Hin) as (j & m & Hm & ->).
  apply filter_In in Hm. destruct Hm as [_ Hv].
  repeat split.
  - unfold validb in Hv. cbn.
    destruct (Tools.get (fst m) registry); [discriminate|].
    discriminate Hv.
  - apply callsFrom_length.
Qed.

(** [getToolConfig] never answers with both an allowed and a disallowed
    list. With tools not enabled it disallows every registered tool; an
    allowed list is never empty and holds no empty name. *)
Theorem getToolConfig_shape (request : ToolRequest) :
  match getToolConfig registry request with
  | (Some allowed, Some _) => False
  | (Some allowed, None) =>
      shouldEnableTools (flagsOf request) = true
      /\ allowed <> [] /\ forallb nonEmpty allowed = true
  | (None, Some disallowed) => disallowed = Tools.getNames registry
  | (None, None) => shouldEnableTools (flagsOf request) = true
  end
  /\ (shouldEnableTools (flagsOf request) = false ->
      getToolConfig registry request
      = (None, Some (Tools.getNames registry))).
Proof.
  unfold getToolConfig.
  destruct (shouldEnableTools (flagsOf request)); cbn [negb];
    [|split; reflexivity].
  split; [|discriminate].
  assert (Hreq : forall specs, forallb nonEmpty (requestedTools specs) = true).
  { intros specs. unfold requestedTools.
    induction (filter (fun t => ts_type t =? "function") specs) as [|t l IH];
      [reflexivity|].
    cbn [filter]. destruct (truthy (ts_name t)) eqn:Ht; [|exact IH].
    cbn [map forallb]. rewrite IH, andb_true_r.
    now apply nonEmpty_orEmpty. }
  destruct (tr_tools request) as [specs|].
  - specialize (Hreq specs).
    destruct (requestedTools specs) as [|x xs].
    + destruct (tr_tool_choice request) as [[s|ty fname]|]; auto.
      * destruct (s =? "none"); auto.
      * destruct ((ty =? "function") && truthy fname) eqn:E; auto.
        apply andb_true_iff in E. destruct E as [_ Hf].
        repeat split; [discriminate|]. cbn [forallb].
        now rewrite nonEmpty_orEmpty.
    + repeat split; [discriminate|exact Hreq].
  - destruct (tr_tool_choice request) as [[s|ty fname]|]; auto.
    + destruct (s =? "none"); auto.
    + destruct ((ty =? "function") && truthy fname) eqn:E; auto.
      apply andb_true_iff in E. destruct E as [_ Hf].
      repeat split; [discriminate|]. cbn [forallb].
      now rewrite nonEmpty_orEmpty.
Qed.




End ToolHandlerFacts.

(** ** The client's event stream *)

Section ClientFacts.
Import CodexClient.

Ltac nothing_yielded :=
  split; [intros ? Hin; cbn in Hin; contradiction|reflexivity].

Ltac one_yielded :=
  split; [|reflexivity];
  intros ? Hin; cbn in Hin; destruct Hin as [<-|[]];
  split; [reflexivity|split; [reflexivity|]].

Lemma onEvent_out (tid : option string) (total : option Usage)
  (event : ThreadEvent) :
  (forall e, In e (fst (onEvent tid total event)) -> wellFormed tid e)
  /\ existsb isError (fst (onEvent tid total event)) = isSdkError event.
Proof.
  unfold wellFormed.
  destruct event as [[item|]|[u|]|e|t]; cbn [onEvent isSdkError].
  - destruct ((item_type item =? "text") && truthy (item_text item)) eqn:E1.
    + apply andb_true_iff in E1. destruct E1 as [_ Ht].
      one_yielded. intros _. cbn. now apply nonEmpty_orEmpty.
    + destruct (item_content item) as [c|]; [|nothing_yielded].
      cbv zeta. destruct ((item_type item =? "message") && _);
        [|nothing_yielded].
      destruct (nonEmpty _) eqn:E2; [|nothing_yielded].
      one_yielded. intros _. exact E2.
  - nothing_yielded.
  - one_yielded. discriminate.
  - nothing_yielded.
  - one_yielded. discriminate.
  - nothing_yielded.
Qed.

Lemma onEvent_total (tid : option string) (total : option Usage)
  (event : ThreadEvent) :
  snd (onEvent tid total event)
  = match turnUsage event with
    | u :: _ => Some (ofSdkUsage u)
    | [] => total
    end.
Proof.
  destruct event as [[item|]|[u|]|e|t]; cbn [onEvent turnUsage]; try reflexivity.
  destruct (_ && _); [reflexivity|].
  destruct (item_content item) as [c|]; [|reflexivity].
  cbv zeta. destruct ((item_type item =? "message") && _); [|reflexivity].
  destruct (nonEmpty _); reflexivity.
Qed.

Lemma lastOf_app {A} (a b : list A) :
  lastOf (a ++ b) = match lastOf b with
                    | Some x => Some x
                    | None => lastOf a
                    end.
Proof.
  unfold lastOf. rewrite rev_app_distr.
  destruct (rev b) as [|x xs]; cbn [app]; reflexivity.
Qed.

Lemma forEvents_out (tid : option string) (evs : list ThreadEvent)
  (total : option Usage) :
  (forall e, In e (fst (forEvents tid total evs)) -> wellFormed tid e)
  /\ existsb isError (fst (forEvents tid total evs)) = existsb isSdkError evs
  /\ snd (forEvents tid total evs)
     = match lastOf (flat_map turnUsage evs) with
       | Some u => Some (ofSdkUsage u)
       | None => total
       end.
Proof.
  revert total. induction evs as [|event rest IH]; intros total;
    cbn [forEvents flat_map existsb].
  - split; [intros e Hin; cbn in Hin; contradiction|split; reflexivity].
  - destruct (onEvent_out tid total event) as [Hwf Herr].
    pose proof (onEvent_total tid total event) as Htot.
    destruct (onEvent tid total event) as [out total'].
    cbn [fst snd] in *.
    destruct (IH total') as (IHwf & IHerr & IHtot).
    destruct (forEvents tid total' rest) as [outs final].
    cbn [fst snd] in *. split; [|split].
    + intros e Hin. apply in_app_or in Hin. destruct Hin; auto.
    + now rewrite existsb_app, Herr, IHerr.
    + rewrite lastOf_app, IHtot.
      destruct (lastOf (flat_map turnUsage rest)); [reflexivity|].
      rewrite Htot.
      destruct event as [[item|]|[u|]|err|t]; reflexivity.
Qed.

Lemma runCompletionStreaming_split
  (codex : Codex) (prompt : string) (options : Options) :
  let thread := openThread codex options in
  let streamed := runStreamed thread (finalPrompt prompt options) in
  exists out last,
    runCompletionStreaming codex prompt options = (out ++ [last])%list
    /\ isTerminal last = true
    /\ isComplete last = match fault streamed with
                         | None => true
                         | Some _ => false
                         end
    /\ (forall e, In e out -> wellFormed (idOf thread) e)
    /\ existsb isError out = existsb isSdkError (events streamed).
Proof.
  cbv zeta. unfold runCompletionStreaming.
  destruct (forEvents_out (idOf (openThread codex options))
              (events (runStreamed (openThread codex options)
                         (finalPrompt prompt options))) None)
    as (Hwf & Herr & _).
  destruct (forEvents _ None _) as [out total]. cbn [fst snd] in *.
  exists out.
  destruct (fault _); eexists;
    (split; [reflexivity|]); (split; [reflexivity|]);
    (split; [reflexivity|]); split; assumption.
Qed.

(** The drained generator ends on [complete] when the SDK iterator ends
    normally and on the [error] of the caught exception otherwise. The
    [complete] event carries the thread id, the finish reason [stop]
    and the usage of the last turn that reported usage: a later turn
    replaces the figures of an earlier one. Every [content] event before
    it has non-empty text and the thread id. *)
Theorem runCompletionStreaming_shape
  (codex : Codex) (prompt : string) (options : Options) :
  let thread := openThread codex options in
  let streamed := runStreamed thread (finalPrompt prompt options) in
  exists out,
    runCompletionStreaming codex prompt options
    = (out ++ [match fault streamed with
               | None =>
                   mkStreamEvent Complete None
                     (lastTurnUsage (events streamed)) (idOf thread)
                     (Some "stop") None
               | Some message =>
                   mkStreamEvent Error None None None None (Some message)
               end])%list
    /\ (forall e, In e out -> wellFormed (idOf thread) e)
    /\ existsb isError out = existsb isSdkError (events streamed).
Proof.
  cbv zeta. unfold runCompletionStreaming, lastTurnUsage.
  destruct (forEvents_out (idOf (openThread codex options))
              (events (runStreamed (openThread codex options)
                         (finalPrompt prompt options))) None)
    as (Hwf & Herr & Htot).
  destruct (forEvents _ None _) as [out total]. cbn [fst snd] in *.
  exists out. split; [|split; assumption].
  destruct (fault _); [reflexivity|].
  rewrite Htot. now destruct (lastOf _).
Qed.

End ClientFacts.

(** ** The handler *)

Section StreamingFacts.
Import SessionManager Server.

Lemma nonEmpty_false_inv (s : string) : nonEmpty s = true -> s <> "".
Proof. intros H ->. discriminate. Qed.

Lemma bind_fst {A B} (c : M A) (k : A -> M B) (w : World) :
  fst (bind c k w) = fst (k (fst (c w)) (snd (c w))).
Proof. now rewrite bind_run. Qed.

Lemma nonEmpty_orElse (v : option string) (lit : string) :
  lit <> "" -> nonEmpty (orElse v lit) = true.
Proof.
  intros Hlit. unfold orElse. destruct (truthy v) eqn:E.
  - now apply nonEmpty_orEmpty.
  - now apply nonEmpty_true.
Qed.

Lemma forStream_frames (requestId mdl : string) (sid : option string)
  (evs : list CodexClient.StreamEvent) (last : CodexClient.StreamEvent)
  (w : World) :
  existsb CodexClient.isComplete evs = false ->
  CodexClient.isTerminal last = true ->
  exists chunks tail,
    fst (forStream requestId mdl sid (evs ++ [last]) w)
    = (chunks ++ tail)%list
    /\ forallb isContentChunk chunks = true
    /\ if negb (existsb CodexClient.isError evs)
          && CodexClient.isComplete last
       then exists final, tail = [final; Done; End]
                          /\ isFinalChunk final = true
       else exists message, tail = [ErrorData message; End].
Proof.
  intros Hnc Hlast. revert w.
  induction evs as [|e evs IH]; intros w.
  - cbn [app forStream existsb negb andb].
    unfold CodexClient.isTerminal, CodexClient.isComplete in *.
    destruct (CodexClient.type last); try discriminate.
    + rewrite !bind_fst. cbn [ret fst].
      exists [], [Data (mkChunk requestId (fst (seconds w)) mdl
                     [mkStreamChoice 0 (mkDelta None None)
                        (Some (orElse (CodexClient.finish_reason last) "stop"))]
                     (CodexClient.usage last)); Done; End].
      split; [reflexivity|]. split; [reflexivity|].
      eexists. split; [reflexivity|]. cbn.
      apply nonEmpty_orElse. discriminate.
    + exists [], [ErrorData (orElse (CodexClient.error last) "Unknown error");
                  End].
      repeat split. now eexists.
  - cbn [existsb] in Hnc. apply orb_false_iff in Hnc.
    destruct Hnc as [He Hnc]. specialize (IH Hnc).
    cbn [app forStream existsb].
    unfold CodexClient.isComplete in He. unfold CodexClient.isError at 1.
    destruct (CodexClient.type e); try discriminate; cbn [orb negb andb].
    + destruct (truthy (CodexClient.content e)) eqn:Ht; [|apply IH].
      rewrite !bind_fst. cbn [ret fst].
      destruct (IH (snd (seconds w))) as (chunks & tail & -> & Hch & Htail).
      eexists (_ :: chunks), tail. split; [reflexivity|].
      split; [|exact Htail]. cbn [forallb]. rewrite Hch, andb_true_r.
      cbn. now rewrite Ht.
    + apply IH.
    + exists [], [ErrorData (orElse (CodexClient.error e) "Unknown error"); End].
      repeat split. now eexists.
Qed.

(** Whatever the backend streams, the frames written are chunks with
    text followed by a closing sequence: a terminal chunk, the end
    marker and the end of the reply when the SDK stream carried no error
    event and its iterator did not throw; one error frame and the end of
    the reply otherwise. The end marker is never written after an
    error. *)
Theorem streaming_termination
  (requestId mdl : string) (sid : option string)
  (codex : CodexClient.Codex) (prompt : string)
  (options : CodexClient.Options) (w : World) :
  let streamed :=
    CodexClient.runStreamed (CodexClient.openThread codex options)
      (CodexClient.finalPrompt prompt options) in
  exists chunks tail,
    fst (forStream requestId mdl sid
           (CodexClient.runCompletionStreaming codex prompt options) w)
    = (chunks ++ tail)%list
    /\ forallb isContentChunk chunks = true
    /\ match CodexClient.fault streamed,
             existsb CodexClient.isSdkError (CodexClient.events streamed) with
       | None, false =>
           exists final, tail = [final; Done; End]
                         /\ isFinalChunk final = true
       | _, _ => exists message, tail = [ErrorData message; End]
       end.
Proof.
  cbv zeta.
  destruct (runCompletionStreaming_split codex prompt options)
    as (out & last & -> & Hterm & Hcomp & Hwf & Herr).
  assert (Hnc : existsb CodexClient.isComplete out = false).
  { destruct (existsb CodexClient.isComplete out) eqn:E; [|reflexivity].
    apply existsb_exists in E. destruct E as (e & Hin & He).
    destruct (Hwf e Hin) as [Hc _]. congruence. }
  destruct (forStream_frames requestId mdl sid out last w Hnc Hterm)
    as (chunks & tail & Heq & Hch & Htail).
  exists chunks, tail. split; [exact Heq|]. split; [exact Hch|].
  rewrite Herr, Hcomp in Htail.
  destruct (CodexClient.fault _);
    destruct (existsb CodexClient.isSdkError _); cbn in Htail; exact Htail.
Qed.

Lemma forStream_no_session (requestId mdl : string) (sid : option string)
  (evs : list CodexClient.StreamEvent) (w : World) :
  truthy sid = false ->
  manager (snd (forStream requestId mdl sid evs w)) = manager w.
Proof.
  intros Hsid. revert w.
  induction evs as [|e evs IH]; intros w; cbn [forStream]; [reflexivity|].
  destruct (CodexClient.type e).
  - destruct (truthy (CodexClient.content e)); [|apply IH].
    rewrite !bind_run. cbn [ret snd]. now rewrite IH.
  - apply IH.
  - rewrite Hsid. cbn [andb]. rewrite !bind_run. cbn [ret snd fst].
    now rewrite IH.
  - reflexivity.
Qed.

End StreamingFacts.

Section RequestFacts.
Import SessionManager Server.
Context {J : Type}.
Variable rt : ToolHandler.Runtime J.
Variable registry : Tools.ToolRegistry.
Variable codex : CodexClient.Codex.
Variable requestId : string.

Lemma rejected_invalid (messages : list Message) :
  MessageAdapter.rejected messages ->
  MessageAdapter.valid (MessageAdapter.validateMessages messages) = false.
Proof.
  unfold MessageAdapter.validateMessages, MessageAdapter.rejected.
  destruct messages as [|m rest]; [reflexivity|].
  simpl Nat.eqb. cbv iota.
  rewrite validateFrom_valid, negb_false_iff, existsb_exists.
  intros [H|H]; [discriminate|].
  assert (exists x, In x (m :: rest)
            /\ (MessageAdapter.lacksRole x \/ MessageAdapter.roleOutside x
                \/ MessageAdapter.emptyUser x))
    as (x & Hin & Hx).
  { destruct H as [(x & ? & ?)|[(x & ? & ?)|(x & ? & ?)]]; exists x; auto. }
  exists x. split; [exact Hin|]. now apply failsChecks_iff.
Qed.

(** A request whose message list is empty or holds a faulty entry is
    answered with status 400 and type [invalid_request_error]; the
    sessions, the clock and the backend are left alone. *)
Theorem rejected_request_untouched (body : Request) (w : World) :
  MessageAdapter.rejected (messages body) ->
  exists e,
    chatCompletions rt registry codex requestId body w = (ErrorReply 400 e "invalid_request_error", w)
    /\ e <> "".
Proof.
  intros Hrej. apply rejected_invalid in Hrej.
  unfold chatCompletions. rewrite Hrej. cbn [negb].
  eexists. split; [reflexivity|].
  apply nonEmpty_false_inv. apply nonEmpty_orElse. discriminate.
Qed.


(** A request without a session id never changes the session manager,
    whatever the backend answers and whether it streams or not. *)
Theorem stateless_request_leaves_manager (body : Request) (w : World) :
  truthy (session_id body) = false ->
  manager (snd (chatCompletions rt registry codex requestId body w)) = manager w.
Proof.
  intros Hsid. unfold chatCompletions.
  destruct (negb (MessageAdapter.valid _)); [reflexivity|].
  rewrite bind_run, (processMessages_stateless w _ _ Hsid). cbn [fst snd].
  destruct (MessageAdapter.messagesToPrompt (messages body))
    as [prompt systemPrompt].
  destruct (negb (nonEmpty prompt)); [reflexivity|].
  cbn [truthy]. rewrite bind_run. cbn [ret fst snd].
  destruct (stream body) as [[|]|].
  - rewrite bind_run. cbn [ret snd]. now apply forStream_no_session.
  - destruct (CodexClient.runCompletion _ _ _); [|reflexivity].
    cbn [truthy andb]. rewrite !bind_run. reflexivity.
  - destruct (CodexClient.runCompletion _ _ _); [|reflexivity].
    cbn [truthy andb]. rewrite !bind_run. reflexivity.
Qed.




End RequestFacts.

Section CompletionFacts.
Import SessionManager Server.
Context {J : Type}.
Variable rt : ToolHandler.Runtime J.
Variable registry : Tools.ToolRegistry.
Variable codex : CodexClient.Codex.
Variable requestId : string.

Lemma runCompletion_inl (prompt : string) (options : CodexClient.Options)
  (result : CodexClient.CodexResponse) :
  CodexClient.runCompletion codex prompt options = inl result ->
  CodexClient.r_usage result = None
  /\ CodexClient.r_finish_reason result = Some "stop"
  /\ CodexClient.r_thread_id result
     = CodexClient.idOf (CodexClient.openThread codex options).
Proof.
  unfold CodexClient.runCompletion.
  destruct (CodexClient.run _ _); intros [= <-]; repeat split.
Qed.

(** A completion reply comes from [afterCompletion], run in the state
    [processMessages] left, on the answer of [runCompletion]. *)
Lemma completion_inv (body : Request) (w : World)
  (resp : ChatCompletionResponse) :
  fst (chatCompletions rt registry codex requestId body w) = Completion resp ->
  let r := processMessages (messages body) (session_id body) w in
  exists prompt options result,
    CodexClient.runCompletion codex prompt options = inl result
    /\ chatCompletions rt registry codex requestId body w
       = afterCompletion rt registry requestId body prompt (snd (fst r))
           result (snd r).
Proof.
  cbv zeta. unfold chatCompletions.
  destruct (negb (MessageAdapter.valid _)); [discriminate|].
  rewrite bind_run.
  destruct (processMessages (messages body) (session_id body) w)
    as [[allMessages actualSessionId] w1]. cbn [fst snd].
  destruct (MessageAdapter.messagesToPrompt allMessages)
    as [prompt systemPrompt].
  destruct (negb (nonEmpty prompt)); [discriminate|].
  rewrite bind_run.
  assert (Hw : snd ((if truthy actualSessionId
                     then getThreadId (orEmpty actualSessionId)
                     else ret None) w1) = w1)
    by (destruct (truthy actualSessionId); reflexivity).
  rewrite Hw.
  set (threadId := fst ((if truthy actualSessionId
                          then getThreadId (orEmpty actualSessionId)
                          else ret None) w1)).
  destruct (stream body) as [[|]|].
  - rewrite bind_run. discriminate.
  - destruct (CodexClient.runCompletion codex prompt
                (CodexClient.mkOptions threadId systemPrompt))
      as [result|e] eqn:Erun; [|discriminate].
    intros _. exists prompt, (CodexClient.mkOptions threadId systemPrompt),
                result.
    split; [exact Erun|reflexivity].
  - destruct (CodexClient.runCompletion codex prompt
                (CodexClient.mkOptions threadId systemPrompt))
      as [result|e] eqn:Erun; [|discriminate].
    intros _. exists prompt, (CodexClient.mkOptions threadId systemPrompt),
                result.
    split; [exact Erun|reflexivity].
Qed.

(** Every completion reply is from the assistant and reports as total
    the sum of its prompt and completion tokens. Either it has no tool
    calls, a content and the finish reason [stop]; or tools were
    enabled and it has at least one tool call, a [null] content and the
    finish reason [tool_calls]. *)
Theorem completion_reply_shape (body : Request) (w : World)
  (resp : ChatCompletionResponse) :
  fst (chatCompletions rt registry codex requestId body w) = Completion resp ->
  m_role (message resp) = "assistant"
  /\ total_tokens (usage resp)
     = (prompt_tokens (usage resp) + completion_tokens (usage resp))%Z
  /\ ((m_tool_calls (message resp) = None
       /\ (exists c, m_content (message resp) = Some c)
       /\ finish_reason resp = "stop")
      \/ (ToolHandler.shouldEnableTools (toolFlags body) = true
          /\ (exists call calls,
                 m_tool_calls (message resp) = Some (call :: calls))
          /\ m_content (message resp) = None
          /\ finish_reason resp = "tool_calls")).
Proof.
  intros Hreply.
  destruct (completion_inv body w resp Hreply)
    as (prompt & options & result & Hrun & Heq).
  rewrite Heq in Hreply. clear Heq.
  destruct (runCompletion_inl _ _ _ Hrun) as (Husage & Hfinish & _).
  unfold afterCompletion in Hreply. rewrite !bind_fst in Hreply.
  cbn [ret fst] in Hreply. injection Hreply as <-.
  cbn [message m_role usage finish_reason m_tool_calls m_content].
  rewrite Husage, Hfinish. cbn [isLit String.eqb Ascii.eqb Bool.eqb].
  split; [reflexivity|]. split; [reflexivity|].
  destruct (ToolHandler.shouldEnableTools (toolFlags body)); cbn [andb].
  - destruct (nonEmpty (CodexClient.r_content result)).
    + destruct (ToolHandler.extractToolCalls _ _ _) as [[|c cs]|].
      * left. repeat split. now eexists.
      * right. repeat split. now eexists _, _.
      * left. repeat split. now eexists.
    + left. repeat split. now eexists.
  - left. repeat split. now eexists.
Qed.





End CompletionFacts.

(** ** Authentication *)

Section AuthFacts.
Import Regex Auth.

Lemma append_empty_r (s : string) : s ++ "" = s.
Proof. induction s as [|c s IH]; cbn; [|rewrite IH]; reflexivity. Qed.

Lemma append_assoc (a b c : string) : (a ++ b) ++ c = a ++ (b ++ c).
Proof. induction a as [|x a IH]; cbn; [|rewrite IH]; reflexivity. Qed.


Lemma concat_cons (x : string) (l : list string) :
  String.concat "" (x :: l) = x ++ String.concat "" l.
Proof.
  destruct l as [|y l]; cbn [String.concat]; [now rewrite append_empty_r|].
  reflexivity.
Qed.

Lemma greedy_splits (p : ascii -> bool) (k : string -> option (list string))
  (n : nat) :
  splits n k ->
  forall s w parts, greedy p k s = Some (w, parts) ->
    w ++ String.concat "" parts = s /\ List.length parts = n.
Proof.
  intros Hk. induction s as [|c s IH]; intros w parts; cbn [greedy].
  - unfold withEmpty. destruct (k "") eqn:E; [|discriminate].
    cbn [option_map].
    intros [= <- <-]. now apply Hk.
  - destruct (p c).
    + destruct (greedy p k s) as [[w' parts']|].
      * intros [= <- <-]. destruct (IH w' parts' eq_refl) as [<- Hlen].
        split; [reflexivity|exact Hlen].
      * unfold withEmpty. destruct (k (String c s)) eqn:E; [|discriminate].
        cbn [option_map].
        intros [= <- <-]. now apply Hk.
    + unfold withEmpty. destruct (k (String c s)) eqn:E; [|discriminate].
        cbn [option_map].
      intros [= <- <-]. now apply Hk.
Qed.

Lemma shortest_splits (p : ascii -> bool) (k : string -> option (list string))
  (n : nat) :
  splits n k ->
  forall s w parts, shortest p k s = Some (w, parts) ->
    w ++ String.concat "" parts = s /\ List.length parts = n.
Proof.
  intros Hk. induction s as [|c s IH]; intros w parts; cbn [shortest].
  - destruct (k "") eqn:E; [|discriminate].
    intros [= <- <-]. now apply Hk.
  - destruct (k (String c s)) eqn:E.
    + intros [= <- <-]. now apply Hk.
    + destruct (p c); [|discriminate].
      destruct (shortest p k s) as [[w' parts']|]; [|discriminate].
      intros [= <- <-]. destruct (IH w' parts' eq_refl) as [<- Hlen].
      split; [reflexivity|exact Hlen].
Qed.

Lemma matchToEnd_splits (pat : Pattern) :
  splits (List.length pat) (matchToEnd pat).
Proof.
  induction pat as [|[p|p|p] rest IH]; intros s parts; cbn [matchToEnd].
  - destruct s; [|discriminate]. intros [= <-]. now split.
  - destruct s as [|c s]; [discriminate|].
    destruct (p c); [|discriminate].
    destruct (matchToEnd rest s) as [parts'|] eqn:E; [|discriminate].
    intros [= <-]. destruct (IH s parts' E) as [<- Hlen].
    rewrite concat_cons. cbn. now rewrite Hlen.
  - destruct s as [|c s]; [discriminate|].
    destruct (p c); [|discriminate].
    destruct (greedy p (matchToEnd rest) s) as [[w parts']|] eqn:E;
      [|discriminate].
    intros [= <-].
    destruct (greedy_splits p _ _ IH s w parts' E) as [<- Hlen].
    rewrite concat_cons. cbn. now rewrite Hlen.
  - destruct (shortest p (matchToEnd rest) s) as [[w parts']|] eqn:E;
      [|discriminate].
    intros [= <-].
    destruct (shortest_splits p _ _ IH s w parts' E) as [<- Hlen].
    rewrite concat_cons. cbn. now rewrite Hlen.
Qed.

Lemma matchToEnd_chr (p : ascii -> bool) (rest : Pattern) (s : string)
  (parts : list string) :
  matchToEnd (Chr p :: rest) s = Some parts ->
  exists c parts', parts = String c "" :: parts'.
Proof.
  cbn [matchToEnd]. destruct s as [|c s]; [discriminate|].
  destruct (p c); [|discriminate].
  destruct (matchToEnd rest s) as [parts'|]; [|discriminate].
  intros [= <-]. now exists c, parts'.
Qed.

(** With a key configured, a request is let through only if it has an
    authorization header and that header ends with the configured key. *)
Theorem verifyApiKey_sound (m : AuthManager) (authorization : option string) :
  truthy (apiKey m) = true ->
  verifyApiKey m authorization = true ->
  exists header scheme,
    authorization = Some header
    /\ header = scheme ++ orEmpty (apiKey m)
    /\ scheme <> "".
Proof.
  intros Hkey. unfold verifyApiKey, bearerToken. rewrite Hkey. cbn [negb].
  destruct (truthy authorization) eqn:Hauth; cbn [negb]; [|discriminate].
  destruct (matchToEnd bearerPattern (orEmpty authorization))
    as [parts|] eqn:E; cbn [option_map]; [|discriminate].
  intros Htok. apply String.eqb_eq in Htok.
  destruct (matchToEnd_splits _ _ _ E) as [Hcat Hlen].
  destruct (matchToEnd_chr _ _ _ _ E) as (c0 & parts' & ->).
  destruct parts' as [|s parts']; [discriminate Hlen|].
  destruct parts' as [|s0 parts']; [discriminate Hlen|].
  destruct parts' as [|s1 parts']; [discriminate Hlen|].
  destruct parts' as [|s2 parts']; [discriminate Hlen|].
  destruct parts' as [|s3 parts']; [discriminate Hlen|].
  destruct parts' as [|s4 parts']; [discriminate Hlen|].
  destruct parts' as [|token parts']; [discriminate Hlen|].
  destruct parts' as [|extra parts']; [|discriminate Hlen].
  unfold group in Htok. cbn [skipn firstn] in Htok.
  rewrite concat_cons in Htok. cbn [String.concat] in Htok.
  rewrite append_empty_r in Htok. subst token.
  rewrite !concat_cons in Hcat. cbn [String.concat] in Hcat.
  rewrite append_empty_r in Hcat.
  exists (orEmpty authorization),
         (String c0 "" ++ s ++ s0 ++ s1 ++ s2 ++ s3 ++ s4).
  split; [now apply orEmpty_truthy|]. split.
  - rewrite <- Hcat. now rewrite !append_assoc.
  - discriminate.
Qed.








End AuthFacts.

(** ** The further properties at concrete inputs *)

Section FurtherWitnesses.
Import SessionManager Server Samples.

Lemma prompt_nonempty_with_user_witness :
  nonEmpty (fst (MessageAdapter.messagesToPrompt
                   [msg "system" "S"; msg "user" "hi"])) = true.
Proof.
  apply (prompt_nonempty_with_user _ (msg "user" "hi")).
  - right. left. reflexivity.
  - reflexivity.
Defined.

Lemma listSessions_order_witness :
  map SessionManager.session_id
    (fst (listSessions (fun _ => "")
            (snd (processMessages [msg "user" "B"] (Some "s2") oneTurnWorld))))
  = ["s1"; "s2"].
Proof.
  assert (H : "s2" <> "") by discriminate.
  exact (listSessions_order (fun _ => "") oneTurnWorld [msg "user" "B"] "s2" H).
Defined.

Lemma processMessages_compose_witness :
  fst (fst (processMessages [msg "user" "C"] (Some "s1")
              (snd (processMessages [msg "user" "B"] (Some "s1")
                      oneTurnWorld))))
  = [msg "user" "A"; msg "user" "B"; msg "user" "C"].
Proof.
  assert (H : "s1" <> "") by discriminate.
  rewrite (processMessages_compose oneTurnWorld
             [msg "user" "B"] [msg "user" "C"] "s1" H).
  reflexivity.
Defined.

Lemma session_mode_has_no_system_prompt_witness :
  snd (MessageAdapter.messagesToPrompt
         (fst (fst (processMessages [msg "system" "S"; msg "user" "B"]
                      (Some "s1") freshWorld)))) = None
  /\ snd (MessageAdapter.messagesToPrompt [msg "system" "S"; msg "user" "B"])
     = Some "S".
Proof.
  split; [|reflexivity].
  apply session_mode_has_no_system_prompt.
  - discriminate.
  - intros sid s Hget. discriminate Hget.
Defined.

Lemma histories_hold_no_system_witness :
  systemFree
    (sessions (manager
       (run tickingClock None
          [ProcessMessages [msg "system" "S"; msg "user" "A"] (Some "s1");
           AddAssistantResponse "s1" (msg "assistant" "Hello")]))).
Proof.
  apply histories_hold_no_system. reflexivity.
Defined.

Lemma rejected_request_untouched_witness :
  exists e,
    serve emptyRequest = (ErrorReply 400 e "invalid_request_error", freshWorld)
    /\ e <> "".
Proof.
  apply (rejected_request_untouched flatRuntime Tools.toolRegistry helloCodex
           "chatcmpl-abc" emptyRequest freshWorld).
  left. reflexivity.
Defined.

Lemma stateless_request_leaves_manager_witness :
  manager (snd (serve (statelessRequest true))) = manager freshWorld
  /\ manager (snd (serve (statelessRequest false))) = manager freshWorld.
Proof.
  split;
    apply (stateless_request_leaves_manager flatRuntime Tools.toolRegistry
             helloCodex "chatcmpl-abc"); reflexivity.
Defined.


Lemma completion_reply_shape_witness :
  exists resp,
    fst (serve (hiRequest false)) = Completion resp
    /\ m_content (message resp) = Some "Hello"
    /\ total_tokens (Server.usage resp)
       = (prompt_tokens (Server.usage resp)
          + completion_tokens (Server.usage resp))%Z.
Proof.
  eexists. split; [reflexivity|]. split; [reflexivity|].
  apply (completion_reply_shape flatRuntime Tools.toolRegistry helloCodex
           "chatcmpl-abc" (hiRequest false) freshWorld _ eq_refl).
Defined.


Lemma verifyApiKey_sound_witness :
  exists header scheme,
    Some "Bearer k1" = Some header
    /\ header = scheme ++ "k1" /\ scheme <> "".
Proof.
  apply (verifyApiKey_sound (Auth.create (Some "k1")) (Some "Bearer k1"));
    reflexivity.
Defined.


End FurtherWitnesses.
